(** * daily_insights_bot: a shallow embedding of the pipeline and its properties

    The module [daily_insights_bot.py] is a linear pipeline: read the feeds,
    keep the fresh entries, extract text, summarise and translate through a
    language model, build one message and post it to a chat.  Everything the
    module gets from outside (the clock, the feed parser, the article
    downloader, the model service, the HTTP client, the environment) is
    gathered in a record [World]; every function of the module becomes a
    function of that record.  Exceptions are values of a sum type, the log
    and the outgoing calls are a list of events.

    Two library functions, [html.unescape] (a table of more than two
    thousand named entities) and [textwrap.shorten] (a regular-expression
    word splitter), are fields of [World] as well; what the properties need
    from them is the predicate [text_library_ok]. *)

From Stdlib Require Import String Ascii DecimalString.
From Stdlib Require Import ZArith List Bool Lia.
From Stdlib Require Import Sorting.Sorted Sorting.Permutation.
Import ListNotations.
Open Scope Z_scope.

(** ** Python strings

    A Python [str] is a sequence of Unicode code points; [len] and slicing
    count code points, so a string is a list of code points here. *)

Definition pystr := list Z.

Definition lit (s : string) : pystr :=
  map (fun a => Z.of_nat (nat_of_ascii a)) (list_ascii_of_string s).

Fixpoint pystr_eqb (a b : pystr) : bool :=
  match a, b with
  | [], [] => true
  | x :: a', y :: b' => (x =? y) && pystr_eqb a' b'
  | _, _ => false
  end.

(** ** Exceptions and results

    Only subclasses of [Exception] are modelled: they are what the [except
    Exception] handlers of the module catch. *)

Inductive exn : Type :=
| TypeError (msg : pystr)
| ValueError (msg : pystr)
| AttributeError (msg : pystr)
| RuntimeError (msg : pystr)
| LibraryError (msg : pystr).

Inductive result (A : Type) : Type :=
| Ok (a : A)
| Raise (e : exn).

Arguments Ok {A} a.
Arguments Raise {A} e.

Definition bind {A B : Type} (c : result A) (k : A -> result B) : result B :=
  match c with
  | Ok a => k a
  | Raise e => Raise e
  end.

Notation "x <- c ;; k" := (bind c (fun x => k))
  (at level 100, c at next level, right associativity).

(** ** Dates and times

    A [datetime] is kept as the number of microseconds of its wall-clock
    fields since 0001-01-01T00:00:00 (the linear order Python compares naive
    values by), together with its [tzinfo]: [None] for a naive value, the
    UTC offset in microseconds for an aware one. *)

Definition US_PER_SECOND : Z := 1000000.
Definition US_PER_HOUR : Z := 3600 * US_PER_SECOND.
Definition US_PER_DAY : Z := 24 * US_PER_HOUR.

Record datetime : Type := { wall : Z; tzinfo : option Z }.

Definition is_leap (y : Z) : bool :=
  (y mod 4 =? 0) && (negb (y mod 100 =? 0) || (y mod 400 =? 0)).

Definition days_in_month (y m : Z) : Z :=
  if m =? 2 then (if is_leap y then 29 else 28)
  else if (m =? 4) || (m =? 6) || (m =? 9) || (m =? 11) then 30
  else 31.

Definition days_before_year (y : Z) : Z :=
  let y1 := y - 1 in y1 * 365 + y1 / 4 - y1 / 100 + y1 / 400.

Definition days_before_month (y m : Z) : Z :=
  nth (Z.to_nat m) [0; 0; 31; 59; 90; 120; 151; 181; 212; 243; 273; 304; 334] 0
  + (if (2 <? m) && is_leap y then 1 else 0).

Definition ymd2ord (y m d : Z) : Z :=
  days_before_year y + days_before_month y m + d.

Definition in_range (lo x hi : Z) : bool := (lo <=? x) && (x <=? hi).

(** The wall clock of a date and a time of day, in microseconds. *)
Definition wall_of_fields (y m d hh mm ss : Z) : Z :=
  (ymd2ord y m d - 1) * US_PER_DAY
  + hh * US_PER_HOUR + mm * 60 * US_PER_SECOND + ss * US_PER_SECOND.

(** [datetime(year, month, day, hour, minute, second, tzinfo=tz)]: the
    constructor checks every field and raises [ValueError] otherwise. *)
Definition datetime_new (y m d hh mm ss : Z) (tz : option Z) : result datetime :=
  if in_range 1 y 9999 && in_range 1 m 12 && in_range 1 d (days_in_month y m)
     && in_range 0 hh 23 && in_range 0 mm 59 && in_range 0 ss 59
  then Ok {| wall := wall_of_fields y m d hh mm ss; tzinfo := tz |}
  else Raise (ValueError (lit "datetime field is out of range")).

(** [timezone.utc] *)
Definition timezone_utc : option Z := Some 0.

(** The instant a value denotes on the UTC time line; a naive value is read
    as UTC, which is what [datetime.utcnow()] returns. *)
Definition utc_instant (d : datetime) : Z :=
  match tzinfo d with
  | None => wall d
  | Some off => wall d - off
  end.

Definition naive_aware_msg : pystr :=
  lit "can't compare offset-naive and offset-aware datetimes".

(** [a < b] on datetimes: two naive values compare by their fields, two
    aware values by their UTC instants, and a naive value cannot be ordered
    against an aware one. *)
Definition dt_lt (a b : datetime) : result bool :=
  match tzinfo a, tzinfo b with
  | None, None => Ok (wall a <? wall b)
  | Some oa, Some ob => Ok (wall a - oa <? wall b - ob)
  | _, _ => Raise (TypeError naive_aware_msg)
  end.

(** [a >= b], same rule. *)
Definition dt_ge (a b : datetime) : result bool :=
  match tzinfo a, tzinfo b with
  | None, None => Ok (wall b <=? wall a)
  | Some oa, Some ob => Ok (wall b - ob <=? wall a - oa)
  | _, _ => Raise (TypeError naive_aware_msg)
  end.

(** [d - timedelta] and [d + timedelta]: arithmetic on the wall clock, the
    [tzinfo] is kept. *)
Definition dt_sub_delta (d : datetime) (delta : Z) : datetime :=
  {| wall := wall d - delta; tzinfo := tzinfo d |}.

Definition dt_add_delta (d : datetime) (delta : Z) : datetime :=
  {| wall := wall d + delta; tzinfo := tzinfo d |}.

Definition timedelta_hours (h : Z) : Z := h * US_PER_HOUR.
Definition timedelta_days (d : Z) : Z := d * US_PER_DAY.

(** ** Configuration *)

Definition RSS_FEEDS : list (pystr * pystr) :=
  [ (lit "McKinsey Insights", lit "https://www.mckinsey.com/featured-insights/rss");
    (lit "Harvard Business Review", lit "https://feeds.harvardbusiness.org/harvardbusiness");
    (lit "Fortune Leadership", lit "https://fortune.com/category/leadership/feed");
    (lit "World Economic Forum", lit "https://www.weforum.org/agenda/feed");
    (lit "KPMG", lit "https://home.kpmg/us/en/blogs/home.rss") ].

Definition MAX_ITEMS : nat := 5.
Definition MAX_ARTICLE_AGE_HOURS : Z := 36.
Definition MODEL_SUMMARY : pystr := lit "gpt-4o".
Definition MODEL_TRANSLATE : pystr := lit "gpt-4o-mini".

(** ** The outside world *)

(** [time.struct_time], the nine fields of a parsed feed date. *)
Record struct_time : Type := {
  tm_year : Z; tm_mon : Z; tm_mday : Z;
  tm_hour : Z; tm_min : Z; tm_sec : Z;
  tm_wday : Z; tm_yday : Z; tm_isdst : Z
}.

(** A feed entry is a dictionary; the four keys the module reads, each
    present or absent. *)
Record FeedEntry : Type := {
  published_parsed : option struct_time;
  entry_title : option pystr;
  entry_link : option pystr;
  entry_summary : option pystr
}.

(** The response of [requests.post]: [resp.ok] and [resp.text]. *)
Record Response : Type := { resp_ok : bool; resp_text : pystr }.

Record World : Type := {
  (** the UTC wall clock read by [datetime.utcnow()], in microseconds *)
  utc_clock : Z;
  (** [feedparser.parse(url).entries], or the exception the call raises *)
  feedparser_parse : pystr -> result (list FeedEntry);
  (** [newspaper.Article]: [None] when the package is not installed,
      otherwise download and parse of a url, giving [article.text] *)
  Article : option (pystr -> result pystr);
  (** [openai.chat.completions.create(model, ..., system, user)], giving
      [choices[0].message.content], which can be [None] *)
  openai_create : pystr -> pystr -> pystr -> result (option pystr);
  (** [html.unescape] and [textwrap.shorten(text, width, placeholder)] of
      the Python standard library *)
  html_unescape : pystr -> pystr;
  textwrap_shorten : pystr -> nat -> pystr -> pystr;
  (** the environment variables read at import time *)
  BOT_TOKEN : pystr;
  CHAT_ID : pystr;
  (** [requests.post(url, data={chat_id, text})] *)
  requests_post : pystr -> pystr -> pystr -> result Response
}.

(** ** Feed Reader *)

(** [(title, link, summary_html, published_dt)] *)
Definition Candidate : Type := (pystr * pystr * pystr * datetime)%type.

Definition cand_title (c : Candidate) : pystr := fst (fst (fst c)).
Definition cand_link (c : Candidate) : pystr := snd (fst (fst c)).
Definition cand_summary (c : Candidate) : pystr := snd (fst c).
Definition cand_published (c : Candidate) : datetime := snd c.

Definition dict_get (v : option pystr) (default : pystr) : pystr :=
  match v with
  | Some s => s
  | None => default
  end.

(** The aware datetime built from the first six fields of
    [e.published_parsed], with [tzinfo=timezone.utc]. *)
Definition published_of (t : struct_time) : result datetime :=
  datetime_new (tm_year t) (tm_mon t) (tm_mday t)
               (tm_hour t) (tm_min t) (tm_sec t) timezone_utc.

Definition candidate_of (e : FeedEntry) (published : datetime) : Candidate :=
  (dict_get (entry_title e) (lit "(no title)"),
   dict_get (entry_link e) [],
   dict_get (entry_summary e) [],
   published).

(** The body of the inner loop, for one entry: [None] stands for
    [continue], [Some c] for the tuple that is appended. *)
Definition keep_entry (cutoff : datetime) (e : FeedEntry) : result (option Candidate) :=
  match published_parsed e with
  | None => Ok None
  | Some t =>
      published <- published_of t ;;
      older <- dt_lt published cutoff ;;
      if older then Ok None else Ok (Some (candidate_of e published))
  end.

Fixpoint scan_entries (cutoff : datetime) (es : list FeedEntry)
                      (entries : list Candidate) : result (list Candidate) :=
  match es with
  | [] => Ok entries
  | e :: es' =>
      r <- keep_entry cutoff e ;;
      scan_entries cutoff es'
        (match r with Some c => entries ++ [c] | None => entries end)
  end.

Fixpoint scan_feeds (w : World) (cutoff : datetime) (feeds : list (pystr * pystr))
                    (entries : list Candidate) : result (list Candidate) :=
  match feeds with
  | [] => Ok entries
  | (_, url) :: feeds' =>
      es <- feedparser_parse w url ;;
      entries' <- scan_entries cutoff es entries ;;
      scan_feeds w cutoff feeds' entries'
  end.

(** [entries.sort(key=lambda x: x[3], reverse=True)]: a stable sort that
    only uses [<] on the keys; elements with equal keys keep their order. *)
Fixpoint insert_newest (c : Candidate) (l : list Candidate) : result (list Candidate) :=
  match l with
  | [] => Ok [c]
  | d :: l' =>
      lt <- dt_lt (cand_published c) (cand_published d) ;;
      if lt then (r <- insert_newest c l' ;; Ok (d :: r)) else Ok (c :: d :: l')
  end.

Fixpoint sort_newest (l : list Candidate) : result (list Candidate) :=
  match l with
  | [] => Ok []
  | c :: l' => s <- sort_newest l' ;; insert_newest c s
  end.

Definition utcnow (w : World) : datetime :=
  {| wall := utc_clock w; tzinfo := None |}.

Definition fetch_from (w : World) (feeds : list (pystr * pystr)) : result (list Candidate) :=
  let cutoff := dt_sub_delta (utcnow w) (timedelta_hours MAX_ARTICLE_AGE_HOURS) in
  entries <- scan_feeds w cutoff feeds [] ;;
  sorted <- sort_newest entries ;;
  Ok (firstn (MAX_ITEMS * 2) sorted).

Definition fetch_recent_entries (w : World) : result (list Candidate) :=
  fetch_from w RSS_FEEDS.

(** ** Events, and the monad of the effectful functions

    A computation gives the events it emitted, in order, and either a value
    or the exception it raised. *)

Inductive level : Type := INFO | WARNING | ERROR.

Inductive log_arg : Type :=
| ArgStr (s : pystr)
| ArgExn (e : exn)
| ArgLen (n : nat)
| ArgHours (us : Z)          (* a duration, printed in hours *)
| ArgDatetime (d : datetime).

Inductive event : Type :=
| EvLog (lv : level) (fmt : pystr) (args : list log_arg)
| EvSendTelegram (text : pystr)            (* [send_telegram(text)] is entered *)
| EvHttpPost (url chat_id text : pystr)    (* [requests.post] is called *)
| EvSleep (us : Z).                        (* [time.sleep] is called *)

Definition M (A : Type) : Type := (list event * result A)%type.

Definition ret {A : Type} (a : A) : M A := ([], Ok a).
Definition raise {A : Type} (e : exn) : M A := ([], Raise e).
Definition emit (ev : event) : M unit := ([ev], Ok tt).
Definition lift {A : Type} (c : result A) : M A := ([], c).

Definition mbind {A B : Type} (c : M A) (k : A -> M B) : M B :=
  match c with
  | (l, Ok a) => let '(l', r) := k a in (l ++ l', r)
  | (l, Raise e) => (l, Raise e)
  end.

(** [try: c  except Exception as exc: h exc] *)
Definition try_except {A : Type} (c : M A) (h : exn -> M A) : M A :=
  match c with
  | (l, Ok a) => (l, Ok a)
  | (l, Raise e) => let '(l', r) := h e in (l ++ l', r)
  end.

Notation "'do' x <- c ; k" := (mbind c (fun x => k))
  (at level 10, x name, c at level 100, k at level 200).
Notation "'do' ' p <- c ; k" := (mbind c (fun p => k))
  (at level 10, p pattern, c at level 100, k at level 200).

Definition events {A : Type} (c : M A) : list event := fst c.
Definition outcome {A : Type} (c : M A) : result A := snd c.

(** ** Text helpers *)

(** [str.isspace] of one code point. *)
Definition py_isspace (c : Z) : bool :=
  in_range 9 c 13 || in_range 28 c 32 || (c =? 133) || (c =? 160)
  || (c =? 5760) || in_range 8192 c 8202 || (c =? 8232) || (c =? 8233)
  || (c =? 8239) || (c =? 8287) || (c =? 12288).

(** [s.split()]: the maximal runs of non-space characters. *)
Fixpoint split_from (s : pystr) (cur : pystr) : list pystr :=
  match s with
  | [] => match cur with [] => [] | _ => [cur] end
  | c :: s' =>
      if py_isspace c
      then match cur with [] => split_from s' [] | _ => cur :: split_from s' [] end
      else split_from s' (cur ++ [c])
  end.

Definition py_split (s : pystr) : list pystr := split_from s [].

(** [sep.join(parts)] *)
Fixpoint py_join (sep : pystr) (parts : list pystr) : pystr :=
  match parts with
  | [] => []
  | [p] => p
  | p :: ps => p ++ sep ++ py_join sep ps
  end.

Fixpoint py_lstrip (s : pystr) : pystr :=
  match s with
  | [] => []
  | c :: s' => if py_isspace c then py_lstrip s' else s
  end.

(** [s.strip()] *)
Definition py_strip (s : pystr) : pystr :=
  rev (py_lstrip (rev (py_lstrip s))).

(** [" ".join(s.split())] *)
Definition collapse_whitespace (s : pystr) : pystr := py_join [32] (py_split s).

(** [html.escape(s)] with its default [quote=True]. *)
Definition escape_char (c : Z) : pystr :=
  if c =? 38 then lit "&amp;"
  else if c =? 60 then lit "&lt;"
  else if c =? 62 then lit "&gt;"
  else if c =? 34 then lit "&quot;"
  else if c =? 39 then lit "&#x27;"
  else [c].

Definition html_escape (s : pystr) : pystr := flat_map escape_char s.

(** [str(n)] for a natural number. *)
Definition str_of_nat (n : nat) : pystr :=
  lit (NilZero.string_of_uint (Nat.to_uint n)).

Definition ELLIPSIS : pystr := [8230].


(** ** Article Extractor *)

(** The fallback expression of [extract_text]. *)
Definition fallback_text (w : World) (fallback_html : pystr) : pystr :=
  html_unescape w
    (textwrap_shorten w
       (collapse_whitespace (html_unescape w fallback_html)) 2000 ELLIPSIS).

Definition extract_text (w : World) (url fallback_html : pystr) : M pystr :=
  do found <-
    match Article w with
    | Some article =>
        try_except
          (do text <- lift (article url);
           match text with
           | [] => ret None
           | _ => ret (Some text)
           end)
          (fun exc =>
             do _ <- emit (EvLog WARNING (lit "newspaper3k failed: %s") [ArgExn exc]);
             ret None)
    | None => ret None
    end;
  match found with
  | Some text => ret text
  | None => ret (fallback_text w fallback_html)
  end.

(** ** Language Model Client *)

Definition chat_completion (w : World) (model system user : pystr) : result pystr :=
  content <- openai_create w model system user ;;
  match content with
  | Some c => Ok (py_strip c)
  | None => Raise (AttributeError (lit "'NoneType' object has no attribute 'strip'"))
  end.

Definition summarize (w : World) (article_text : pystr) : result pystr :=
  let system := lit "You are a strategy editor writing concise executive summaries." in
  let user :=
    lit "Summarize the following text in 2" ++ [8211]
    ++ lit "3 formal sentences for a senior business leader "
    ++ lit "(clarity, no buzzwords):" ++ [10; 10] ++ article_text in
  chat_completion w MODEL_SUMMARY system user.

Definition translate_persian (w : World) (summary : pystr) : result pystr :=
  let system := lit "You are a professional translator proficient in Persian (Farsi)." in
  let user :=
    lit "Translate the following English executive summary into formal Persian (Farsi) while keeping the tone professional and concise:"
    ++ [10; 10] ++ summary in
  chat_completion w MODEL_TRANSLATE system user.

(** ** Message Builder *)

(** [(title, en, fa)] *)
Definition Item : Type := (pystr * pystr * pystr)%type.

Definition block (idx : nat) (item : Item) : list pystr :=
  let '(title, en, fa) := item in
  [ [128204] ++ lit " Insight #" ++ str_of_nat idx ++ lit ":";
    [128478] ++ lit " Title: " ++ html_escape title;
    [9997; 65039] ++ lit " English Summary (Formal): " ++ html_escape en;
    [127535] ++ lit " Persian Translation (Formal): " ++ html_escape fa;
    [10] ].

Fixpoint build_lines (idx : nat) (items : list Item) : list pystr :=
  match items with
  | [] => []
  | item :: rest => block idx item ++ build_lines (S idx) rest
  end.

Definition build_message (items : list Item) : pystr :=
  firstn 4000 (py_join [10] (build_lines 1 items)).

(** ** Delivery Client *)

Definition TELEGRAM_URL (w : World) : pystr :=
  lit "https://api.telegram.org/bot" ++ BOT_TOKEN w ++ lit "/sendMessage".

Definition send_telegram (w : World) (text : pystr) : M unit :=
  do _ <- emit (EvSendTelegram text);
  match BOT_TOKEN w, CHAT_ID w with
  | _ :: _, _ :: _ =>
      let url := TELEGRAM_URL w in
      do _ <- emit (EvHttpPost url (CHAT_ID w) text);
      do resp <- lift (requests_post w url (CHAT_ID w) text);
      if resp_ok resp then ret tt
      else raise (RuntimeError (lit "Telegram error: " ++ resp_text resp))
  | _, _ => raise (RuntimeError (lit "Telegram credentials missing."))
  end.

(** ** Main flow *)

(** One pass of the [for] loop of [run_once] below its [break] test. *)
Definition process_entry (w : World) (c : Candidate) (processed : list Item) : M (list Item) :=
  let '(title, link, summary_html, _) := c in
  do _ <- emit (EvLog INFO (lit "Processing: %s") [ArgStr title]);
  do full_text <- extract_text w link summary_html;
  try_except
    (do en_summary <- lift (summarize w full_text);
     do fa_summary <- lift (translate_persian w en_summary);
     ret (processed ++ [(title, en_summary, fa_summary)]))
    (fun exc =>
       do _ <- emit (EvLog ERROR (lit "OpenAI failed for '%s': %s") [ArgStr title; ArgExn exc]);
       ret processed).

Fixpoint process_loop (w : World) (entries : list Candidate) (processed : list Item)
  : M (list Item) :=
  match entries with
  | [] => ret processed
  | c :: rest =>
      if (MAX_ITEMS <=? length processed)%nat then ret processed
      else do processed' <- process_entry w c processed;
           process_loop w rest processed'
  end.

Definition NO_ITEMS_MSG : pystr :=
  lit "No items processed " ++ [8211] ++ lit " aborting send.".

(** The end of [run_once], from [if not processed:] on. *)
Definition finish_run (w : World) (processed : list Item) : M unit :=
  match processed with
  | [] => emit (EvLog WARNING NO_ITEMS_MSG [])
  | _ :: _ =>
      let message := build_message processed in
      do _ <- send_telegram w message;
      emit (EvLog INFO (lit "Message sent to Telegram (length %s)") [ArgLen (length message)])
  end.

(** [run_once] from the line after [entries = fetch_recent_entries()]. *)
Definition run_once_on (w : World) (entries : list Candidate) : M unit :=
  do processed <- process_loop w entries [];
  finish_run w processed.

Definition FETCHING_MSG : pystr := lit "Fetching recent entries" ++ [8230].

Definition run_once (w : World) : M unit :=
  do _ <- emit (EvLog INFO FETCHING_MSG []);
  do entries <- lift (fetch_recent_entries w);
  run_once_on w entries.

(** ** Scheduler *)

(** A time zone, as [pytz] has it: the UTC offset in force at each UTC
    instant, in microseconds. *)
Definition tzone : Type := Z -> Z.

(** [datetime.now(timezone.utc)] when the clock reads [clock]. *)
Definition now_in_utc (clock : Z) : datetime :=
  {| wall := clock; tzinfo := timezone_utc |}.

(** [d.astimezone(tz)] for an aware [d]. *)
Definition astimezone (tz : tzone) (d : datetime) : datetime :=
  let u := utc_instant d in
  {| wall := u + tz u; tzinfo := Some (tz u) |}.

(** [d.replace(hour=hh, minute=mm, second=0, microsecond=0)]: the date and
    the [tzinfo] are kept. *)
Definition replace_time (d : datetime) (hh mm : Z) : datetime :=
  {| wall := (wall d / US_PER_DAY) * US_PER_DAY + hh * US_PER_HOUR + mm * 60 * US_PER_SECOND;
     tzinfo := tzinfo d |}.

(** [(a - b)] as a number of microseconds. *)
Definition dt_diff (a b : datetime) : result Z :=
  match tzinfo a, tzinfo b with
  | None, None => Ok (wall a - wall b)
  | Some oa, Some ob => Ok ((wall a - oa) - (wall b - ob))
  | _, _ => Raise (TypeError (lit "can't subtract offset-naive and offset-aware datetimes"))
  end.

(** The first five statements of the [while] body: the target and the time
    to sleep.  [total_seconds()] is a float; the duration is kept exact, in
    microseconds. *)
Definition next_run (tz_tehran : tzone) (clock : Z) : result (datetime * Z) :=
  let now_utc := now_in_utc clock in
  let now_teh := astimezone tz_tehran now_utc in
  let target := replace_time now_teh 9 30 in
  ge <- dt_ge now_teh target ;;
  let target := if ge then dt_add_delta target (timedelta_days 1) else target in
  sleep_us <- dt_diff target now_teh ;;
  Ok (target, sleep_us).

(** What one turn of the loop meets: the clock at the top of the body, and
    the world in which the pipeline then runs. *)
Record Turn : Type := { loop_clock : Z; run_world : World }.

Definition SLEEPING_MSG : pystr := lit "Sleeping %.1f h until next run at %s Tehran".

Definition loop_body (tz_tehran : tzone) (t : Turn) : M unit :=
  do ' (target, sleep_us) <- lift (next_run tz_tehran (loop_clock t));
  do _ <- emit (EvLog INFO SLEEPING_MSG [ArgHours sleep_us; ArgDatetime target]);
  do _ <- emit (EvSleep sleep_us);
  run_once (run_world t).

Inductive loop_end : Type :=
| StillLooping              (* the turns asked for are done, the loop goes on *)
| Crashed (e : exn).        (* an exception left the [while] loop *)

(** [while True:] for at most [n] turns, starting at turn [i]. *)
Fixpoint main_loop (tz_tehran : tzone) (turns : nat -> Turn) (i n : nat)
  : list event * loop_end :=
  match n with
  | O => ([], StillLooping)
  | S n' =>
      match loop_body tz_tehran (turns i) with
      | (l, Raise e) => (l, Crashed e)
      | (l, Ok _) =>
          let '(l', r) := main_loop tz_tehran turns (S i) n' in (l ++ l', r)
      end
  end.

(** The number of pipeline runs started in a trace: [run_once] begins with
    its "Fetching" log line. *)
Definition is_run_start (ev : event) : bool :=
  match ev with
  | EvLog INFO fmt [] => pystr_eqb fmt FETCHING_MSG
  | _ => false
  end.

Definition runs_started (l : list event) : nat := length (filter is_run_start l).

Definition is_delivery (ev : event) : bool :=
  match ev with
  | EvSendTelegram _ => true
  | _ => false
  end.

Definition is_log (ev : event) : bool :=
  match ev with
  | EvLog _ _ _ => true
  | _ => false
  end.

Definition is_http_post (ev : event) : bool :=
  match ev with
  | EvHttpPost _ _ _ => true
  | _ => false
  end.

(** ** Notions used to state the properties *)


(** [a] may stand before [b] in a list sorted newest first. *)
Definition newest_first (a b : Candidate) : Prop :=
  utc_instant (cand_published b) <= utc_instant (cand_published a).

(** The text [extract_text] gives, as a function of the world. *)
Definition article_text (w : World) (url fallback_html : pystr) : pystr :=
  match Article w with
  | Some article =>
      match article url with
      | Ok (c :: text) => c :: text
      | _ => fallback_text w fallback_html
      end
  | None => fallback_text w fallback_html
  end.

(** The two model calls for one candidate: the item, or the exception of the
    call that failed. *)
Definition model_calls (w : World) (c : Candidate) : result Item :=
  en <- summarize w (article_text w (cand_link c) (cand_summary c)) ;;
  fa <- translate_persian w en ;;
  Ok (cand_title c, en, fa).

(** The items of the candidates for which both calls succeed, in order. *)
Definition successes (w : World) (entries : list Candidate) : list Item :=
  flat_map (fun c => match model_calls w c with Ok it => [it] | Raise _ => [] end) entries.

(** The items a run ends with: the first [MAX_ITEMS] successes. *)
Definition capped_items (w : World) (entries : list Candidate) : list Item :=
  firstn MAX_ITEMS (successes w entries).

(** 09:30:00 as a time of day, in microseconds. *)
Definition HALF_PAST_NINE : Z := 9 * US_PER_HOUR + 30 * 60 * US_PER_SECOND.

(** What [loop_body] emits before it runs the pipeline. *)
Definition sleep_events (target : datetime) (sleep_us : Z) : list event :=
  [EvLog INFO SLEEPING_MSG [ArgHours sleep_us; ArgDatetime target]; EvSleep sleep_us].

Definition OPENAI_FAILED_MSG : pystr := lit "OpenAI failed for '%s': %s".

(** ** Worlds for the examples *)

(** A stand-in for [textwrap.shorten] that cuts at [width] whatever the word
    boundaries; it only serves to build example worlds. *)
Definition cut_shorten (t : pystr) (width : nat) (p : pystr) : pystr :=
  if (length t <=? width)%nat then t else firstn (width - length p) t ++ p.

Definition st (y m d hh mm ss : Z) : struct_time :=
  {| tm_year := y; tm_mon := m; tm_mday := d; tm_hour := hh; tm_min := mm; tm_sec := ss;
     tm_wday := 0; tm_yday := 1; tm_isdst := 0 |}.

Definition dated_entry (t : struct_time) (title summary : pystr) : FeedEntry :=
  {| published_parsed := Some t; entry_title := Some title;
     entry_link := Some (lit "https://example.org/article");
     entry_summary := Some summary |}.


(** The model service of the examples: it fails on a prompt that holds an
    exclamation mark and echoes a fixed answer otherwise. *)
Definition picky_model (model system user : pystr) : result (option pystr) :=
  if existsb (Z.eqb 33) user then Raise (LibraryError (lit "rate limit"))
  else Ok (Some (lit " A summary. ")).

(** 2024-01-02 12:00:00 UTC, every feed empty, credentials set, the channel
    accepting. *)
Definition world_with (feeds : pystr -> result (list FeedEntry))
                      (token chat : pystr) (post : pystr -> pystr -> pystr -> result Response)
  : World :=
  {| utc_clock := wall_of_fields 2024 1 2 12 0 0;
     feedparser_parse := feeds;
     Article := None;
     openai_create := picky_model;
     html_unescape := fun s => s;
     textwrap_shorten := cut_shorten;
     BOT_TOKEN := token;
     CHAT_ID := chat;
     requests_post := post |}.

Definition accept_post (url chat_id text : pystr) : result Response :=
  Ok {| resp_ok := true; resp_text := lit "{}" |}.

Definition reject_post (url chat_id text : pystr) : result Response :=
  Ok {| resp_ok := false; resp_text := lit "Bad Request: chat not found" |}.

Definition quiet_world : World :=
  world_with (fun _ => Ok []) (lit "123:abc") (lit "42") accept_post.

Definition no_token_world : World :=
  world_with (fun _ => Ok []) [] (lit "42") accept_post.

Definition rejecting_world : World :=
  world_with (fun _ => Ok []) (lit "123:abc") (lit "42") reject_post.

Definition KPMG_URL : pystr := lit "https://home.kpmg/us/en/blogs/home.rss".
Definition MCKINSEY_URL : pystr := lit "https://www.mckinsey.com/featured-insights/rss".

(** The last feed cannot be fetched; the others are empty. *)
Definition kpmg_down_world : World :=
  world_with (fun url => if pystr_eqb url KPMG_URL
                         then Raise (LibraryError (lit "Remote end closed connection"))
                         else Ok [])
             (lit "123:abc") (lit "42") accept_post.


(** The first feed has one entry published at 2024-01-01 00:00:00 UTC,
    exactly 36 hours before the clock of the world. *)
Definition boundary_world : World :=
  world_with (fun url => if pystr_eqb url MCKINSEY_URL
                         then Ok [dated_entry (st 2024 1 1 0 0 0) (lit "On the boundary") (lit "text")]
                         else Ok [])
             (lit "123:abc") (lit "42") accept_post.

(** Three candidates, already fetched; the model fails on the second. *)
Definition utc_dt (y m d hh mm ss : Z) : datetime :=
  {| wall := wall_of_fields y m d hh mm ss; tzinfo := timezone_utc |}.

Definition cand1 : Candidate :=
  (lit "First", lit "https://example.org/1", lit "plain text", utc_dt 2024 1 2 11 0 0).
Definition cand2 : Candidate :=
  (lit "Second", lit "https://example.org/2", lit "breaking!", utc_dt 2024 1 2 10 0 0).
Definition cand3 : Candidate :=
  (lit "Third", lit "https://example.org/3", lit "more text", utc_dt 2024 1 2 9 0 0).

(** Asia/Tehran as the docstring of the module has it: UTC+3:30 all year. *)
Definition tehran_fixed : tzone := fun _ => 3 * US_PER_HOUR + 30 * 60 * US_PER_SECOND.

Definition turns_quiet : nat -> Turn :=
  fun _ => {| loop_clock := wall_of_fields 2024 1 2 12 0 0; run_world := quiet_world |}.

Definition turns_kpmg_down : nat -> Turn :=
  fun _ => {| loop_clock := wall_of_fields 2024 1 2 12 0 0; run_world := kpmg_down_world |}.

(** ** The command line

    [--run-once] is the only option: with it the pipeline runs once and the
    process ends, without it the scheduling loop runs. *)

Inductive process_end : Type :=
| Exited                    (* the script reached its end *)
| Looping                   (* the scheduling loop is still going *)
| Uncaught (e : exn).       (* an exception ended the process *)

(** The [__main__] block, the loop followed for at most [n] turns. *)
Definition main (run_once_flag : bool) (tz_tehran : tzone) (turns : nat -> Turn) (n : nat)
  : list event * process_end :=
  if run_once_flag then
    match run_once (run_world (turns O)) with
    | (l, Ok _) => (l, Exited)
    | (l, Raise e) => (l, Uncaught e)
    end
  else
    match main_loop tz_tehran turns O n with
    | (l, StillLooping) => (l, Looping)
    | (l, Crashed e) => (l, Uncaught e)
    end.

(** ** Notions used to state the further properties *)

Definition is_sleep (ev : event) : bool :=
  match ev with
  | EvSleep _ => true
  | _ => false
  end.

Definition sleeps (l : list event) : nat := length (filter is_sleep l).

Definition SENT_MSG : pystr := lit "Message sent to Telegram (length %s)".

Definition is_sent_log (ev : event) : bool :=
  match ev with
  | EvLog INFO _ [ArgLen _] => true
  | _ => false
  end.

(** Neither a start of a run, nor a sleep, nor the record of a sent
    message: what the loop over the candidates may emit. *)
Definition is_processing_event (ev : event) : bool :=
  negb (is_run_start ev) && negb (is_sleep ev) && negb (is_sent_log ev)
  && negb (is_delivery ev) && negb (is_http_post ev).

(** The characters that [html.escape] replaces, the ampersand apart. *)
Definition is_markup_char (c : Z) : bool :=
  (c =? 60) || (c =? 62) || (c =? 34) || (c =? 39).

Definition clean (c : Z) : bool := negb (is_markup_char c).

Definition nonspace (c : Z) : bool := negb (py_isspace c).

(** A word of [s.split()]: not empty, and without whitespace. *)
Definition is_word (p : pystr) : Prop := p <> [] /\ forallb nonspace p = true.

Definition item_title (it : Item) : pystr := fst (fst it).

(** The first line of the block of index [idx]. *)
Definition block_header (idx : nat) : pystr :=
  [128204] ++ lit " Insight #" ++ str_of_nat idx ++ lit ":".


Definition aware (d : datetime) : Prop := tzinfo d <> None.

(** * Properties *)

(** ** The result and effect monads *)

Lemma bind_ok {A B : Type} (c : result A) (k : A -> result B) (b : B) :
  bind c k = Ok b -> exists a, c = Ok a /\ k a = Ok b.
Proof. destruct c as [a|e]; simpl; [eauto | discriminate]. Qed.

Lemma bind_raise {A B : Type} (c : result A) (k : A -> result B) (e : exn) :
  c = Raise e -> bind c k = Raise e.
Proof. intros ->; reflexivity. Qed.

Ltac bind_inv H :=
  let a := fresh "a" in
  let Ha := fresh "Ha" in
  apply bind_ok in H; destruct H as (a & Ha & H).

(** ** Comparison of datetimes *)

Lemma dt_lt_false (a b : datetime) :
  dt_lt a b = Ok false -> utc_instant b <= utc_instant a.
Proof.
  unfold dt_lt, utc_instant.
  destruct (tzinfo a), (tzinfo b); intros H; inversion H as [H1];
    apply Z.ltb_ge in H1; lia.
Qed.

Lemma dt_lt_true (a b : datetime) :
  dt_lt a b = Ok true -> utc_instant a < utc_instant b.
Proof.
  unfold dt_lt, utc_instant.
  destruct (tzinfo a), (tzinfo b); intros H; inversion H as [H1];
    apply Z.ltb_lt in H1; lia.
Qed.

(** An aware value against a naive one cannot be ordered. *)
Lemma dt_lt_aware_naive (a b : datetime) (off : Z) :
  tzinfo a = Some off -> tzinfo b = None ->
  dt_lt a b = Raise (TypeError naive_aware_msg).
Proof. unfold dt_lt; intros -> ->; reflexivity. Qed.

Lemma published_of_aware (t : struct_time) (d : datetime) :
  published_of t = Ok d -> tzinfo d = Some 0.
Proof.
  unfold published_of, datetime_new.
  destruct (_ && _); intros H; inversion H; reflexivity.
Qed.

(** ** Feed Reader: what is kept *)




(** ** Feed Reader: the sort *)

Lemma insert_newest_perm (c : Candidate) (l : list Candidate) :
  forall r, insert_newest c l = Ok r -> Permutation (c :: l) r.
Proof.
  induction l as [|d l IH]; simpl; intros r H.
  - inversion H; auto.
  - bind_inv H. destruct a.
    + bind_inv H. inversion H; subst r.
      rewrite perm_swap. constructor. auto.
    + inversion H; auto.
Qed.

Lemma sort_newest_perm (l : list Candidate) :
  forall r, sort_newest l = Ok r -> Permutation l r.
Proof.
  induction l as [|c l IH]; simpl; intros r H.
  - inversion H; auto.
  - bind_inv H. apply insert_newest_perm in H.
    rewrite <- H. constructor. auto.
Qed.

Lemma insert_newest_sorted (c : Candidate) (l : list Candidate) :
  forall r, StronglySorted newest_first l -> insert_newest c l = Ok r ->
            StronglySorted newest_first r.
Proof.
  induction l as [|d l IH]; simpl; intros r Hs H.
  - inversion H; repeat constructor.
  - bind_inv H. inversion Hs as [|? ? Hs' Hd]; subst. destruct a.
    + bind_inv H. inversion H; subst r. constructor; [eauto|].
      apply insert_newest_perm in Ha0.
      eapply Permutation_Forall; [exact Ha0|].
      constructor; auto. apply dt_lt_true in Ha. unfold newest_first. lia.
    + inversion H; subst r. apply dt_lt_false in Ha.
      constructor; auto. constructor; [exact Ha|].
      eapply Forall_impl; [|exact Hd]. unfold newest_first. intros; lia.
Qed.

Lemma sort_newest_sorted (l : list Candidate) :
  forall r, sort_newest l = Ok r -> StronglySorted newest_first r.
Proof.
  induction l as [|c l IH]; simpl; intros r H.
  - inversion H; constructor.
  - bind_inv H. eapply insert_newest_sorted; eauto.
Qed.







(** ** Feed Reader: the cutoff is naive, the publication time is aware

    [cutoff] comes from [datetime.utcnow()], which has no [tzinfo];
    [published] is built with [tzinfo=timezone.utc].  The test
    [published < cutoff] therefore raises for every entry that carries a
    date, and the reader can only return when no entry does. *)

Lemma keep_entry_never_keeps (w : World) (e : FeedEntry) (r : option Candidate) :
  keep_entry (dt_sub_delta (utcnow w) (timedelta_hours MAX_ARTICLE_AGE_HOURS)) e = Ok r ->
  r = None.
Proof.
  unfold keep_entry. destruct (published_parsed e) as [t|].
  - intros H. bind_inv H. apply published_of_aware in Ha.
    erewrite dt_lt_aware_naive in H by (eassumption || reflexivity).
    discriminate.
  - intros H; inversion H; reflexivity.
Qed.

Lemma scan_entries_keeps_nothing (w : World) (es : list FeedEntry) :
  forall out,
    scan_entries (dt_sub_delta (utcnow w) (timedelta_hours MAX_ARTICLE_AGE_HOURS)) es [] = Ok out ->
    out = [].
Proof.
  induction es as [|e es IH]; simpl; intros out H.
  - inversion H; reflexivity.
  - bind_inv H. apply keep_entry_never_keeps in Ha. subst a. auto.
Qed.

Lemma scan_feeds_keeps_nothing (w : World) (feeds : list (pystr * pystr)) :
  forall out,
    scan_feeds w (dt_sub_delta (utcnow w) (timedelta_hours MAX_ARTICLE_AGE_HOURS)) feeds [] = Ok out ->
    out = [].
Proof.
  induction feeds as [|[source url] feeds IH]; simpl; intros out H.
  - inversion H; reflexivity.
  - bind_inv H. bind_inv H. apply scan_entries_keeps_nothing in Ha0. subst a0. auto.
Qed.

(** Whenever the reader returns, it returns the empty list. *)
Lemma fetch_recent_entries_returns_nothing (w : World) (out : list Candidate) :
  fetch_recent_entries w = Ok out -> out = [].
Proof.
  unfold fetch_recent_entries, fetch_from. intros H. bind_inv H. bind_inv H.
  apply scan_feeds_keeps_nothing in Ha. subst a.
  simpl in Ha0. inversion Ha0; subst a0. inversion H; reflexivity.
Qed.

(** C10.  An entry published exactly 36 hours before the call (2024-01-01
    00:00:00 UTC, the clock reading 2024-01-02 12:00:00 UTC) is not retained:
    comparing its aware publication time with the naive cutoff raises
    [TypeError], and the exception leaves [fetch_recent_entries]. *)
Theorem boundary_entry_raises_type_error :
  utc_clock boundary_world - wall_of_fields 2024 1 1 0 0 0
    = MAX_ARTICLE_AGE_HOURS * US_PER_HOUR /\
  published_of (st 2024 1 1 0 0 0) = Ok (utc_dt 2024 1 1 0 0 0) /\
  fetch_recent_entries boundary_world = Raise (TypeError naive_aware_msg).
Proof. repeat split; vm_compute; reflexivity. Qed.

(** ** Feed Reader: a failing source *)

Lemma scan_feeds_raise (w : World) (cutoff : datetime) (feeds : list (pystr * pystr))
      (source url : pystr) (e : exn) :
  In (source, url) feeds -> feedparser_parse w url = Raise e ->
  forall entries, exists e', scan_feeds w cutoff feeds entries = Raise e'.
Proof.
  induction feeds as [|[s u] feeds IH]; simpl; intros Hin Hp entries; [contradiction|].
  destruct Hin as [Heq|Hin].
  - inversion Heq; subst. rewrite Hp. simpl. eauto.
  - destruct (feedparser_parse w u) as [es|e1]; simpl; eauto.
    destruct (scan_entries cutoff es entries) as [entries'|e2]; simpl; eauto.
Qed.

Lemma scan_feeds_skip_empty (w : World) (cutoff : datetime) (source url : pystr)
      (before after : list (pystr * pystr)) :
  feedparser_parse w url = Ok [] ->
  forall entries,
    scan_feeds w cutoff (before ++ (source, url) :: after) entries
    = scan_feeds w cutoff (before ++ after) entries.
Proof.
  intros Hp. induction before as [|[s u] before IH]; simpl; intros entries.
  - rewrite Hp. reflexivity.
  - destruct (feedparser_parse w u) as [es|e1]; simpl; auto.
    destruct (scan_entries cutoff es entries) as [entries'|e2]; simpl; auto.
Qed.

(** C2, as the code has it.  There is no handler around the fetch of a
    source: when [feedparser.parse] raises for a configured source,
    [fetch_recent_entries] raises to its caller and returns no entry of any
    source.  A source for which the parser returns an empty list of entries
    leaves the result of the reader as it is without that source. *)
Theorem source_failure_reaches_caller (w : World) :
  (forall source url e,
      In (source, url) RSS_FEEDS -> feedparser_parse w url = Raise e ->
      exists e', fetch_recent_entries w = Raise e') /\
  (forall before after source url,
      feedparser_parse w url = Ok [] ->
      fetch_from w (before ++ (source, url) :: after) = fetch_from w (before ++ after)).
Proof.
  split.
  - intros source url e Hin Hp. unfold fetch_recent_entries, fetch_from.
    destruct (scan_feeds_raise w
                (dt_sub_delta (utcnow w) (timedelta_hours MAX_ARTICLE_AGE_HOURS))
                RSS_FEEDS source url e Hin Hp []) as [e' He'].
    exists e'. rewrite He'. reflexivity.
  - intros before after source url Hp. unfold fetch_from.
    rewrite (scan_feeds_skip_empty w _ source url before after Hp). reflexivity.
Qed.

Lemma source_failure_reaches_caller_witness :
  (exists e', fetch_recent_entries kpmg_down_world = Raise e') /\
  fetch_from quiet_world ([] ++ (lit "KPMG", KPMG_URL) :: [])
  = fetch_from quiet_world ([] ++ []).
Proof.
  split.
  - apply (proj1 (source_failure_reaches_caller kpmg_down_world)
                 (lit "KPMG") KPMG_URL
                 (LibraryError (lit "Remote end closed connection"))).
    + simpl. do 4 right. left. reflexivity.
    + reflexivity.
  - apply (proj2 (source_failure_reaches_caller quiet_world)). reflexivity.
Defined.

(** C2 as stated fails: with the last source down and every other feed
    answering, the failure is raised to the caller of the reader. *)
Lemma source_failure_not_isolated :
  ~ (forall (w : World) (source url : pystr) (e : exn),
        In (source, url) RSS_FEEDS -> feedparser_parse w url = Raise e ->
        exists out, fetch_recent_entries w = Ok out).
Proof.
  intros H.
  destruct (H kpmg_down_world (lit "KPMG") KPMG_URL
              (LibraryError (lit "Remote end closed connection"))) as [out Hout].
  - simpl. do 4 right. left. reflexivity.
  - reflexivity.
  - vm_compute in Hout. discriminate.
Qed.

(** ** Message Builder *)

(** C5.  Whatever the items, and so for 1 to 5 items with summaries of any
    length, the message has at most 4000 characters. *)
Theorem build_message_within_cap (items : list Item) :
  (length (build_message items) <= 4000)%nat.
Proof. unfold build_message. apply firstn_le_length. Qed.

(** The cap is reached: one item with a summary of 5000 characters gives a
    message of exactly 4000. *)
Example build_message_truncates :
  length (build_message [(lit "T", repeat 97 5000, lit "f")]) = 4000%nat.
Proof. vm_compute. reflexivity. Qed.

(** ** Article Extractor *)

Lemma extract_text_value (w : World) (url fallback_html : pystr) :
  outcome (extract_text w url fallback_html) = Ok (article_text w url fallback_html).
Proof.
  unfold extract_text, article_text.
  destruct (Article w) as [article|]; [|reflexivity].
  destruct (article url) as [[|c text]|exc]; reflexivity.
Qed.




(** ** Delivery Client *)

(** C7.  Without the token or without the chat id, [send_telegram] raises the
    configuration error and makes no HTTP call.  With both, it makes exactly
    one HTTP call; a response that is not ok makes it raise an error that
    carries the body of the response, an ok response makes it return, and an
    exception of the HTTP client leaves it as it is: in no case is there a
    second call. *)
Theorem send_telegram_one_attempt (w : World) (text : pystr) :
  (BOT_TOKEN w = [] \/ CHAT_ID w = [] ->
   send_telegram w text
   = ([EvSendTelegram text], Raise (RuntimeError (lit "Telegram credentials missing.")))) /\
  (BOT_TOKEN w <> [] -> CHAT_ID w <> [] ->
   events (send_telegram w text)
   = [EvSendTelegram text; EvHttpPost (TELEGRAM_URL w) (CHAT_ID w) text] /\
   outcome (send_telegram w text)
   = match requests_post w (TELEGRAM_URL w) (CHAT_ID w) text with
     | Ok resp =>
         if resp_ok resp then Ok tt
         else Raise (RuntimeError (lit "Telegram error: " ++ resp_text resp))
     | Raise e => Raise e
     end).
Proof.
  unfold send_telegram, TELEGRAM_URL. split.
  - intros [H|H]; rewrite H; [|destruct (BOT_TOKEN w)]; reflexivity.
  - intros Ht Hc.
    destruct (BOT_TOKEN w) as [|t0 token] eqn:Et; [contradiction|].
    destruct (CHAT_ID w) as [|c0 chat] eqn:Ec; [contradiction|].
    simpl.
    destruct (requests_post w _ _ text) as [resp|e]; simpl; [|split; reflexivity].
    destruct (resp_ok resp); split; reflexivity.
Qed.

Lemma send_telegram_one_attempt_witness :
  (BOT_TOKEN no_token_world = [] \/ CHAT_ID no_token_world = []) /\
  send_telegram no_token_world (lit "digest")
  = ([EvSendTelegram (lit "digest")],
     Raise (RuntimeError (lit "Telegram credentials missing."))) /\
  BOT_TOKEN rejecting_world <> [] /\ CHAT_ID rejecting_world <> [] /\
  filter is_http_post (events (send_telegram rejecting_world (lit "digest")))
  = [EvHttpPost (TELEGRAM_URL rejecting_world) (lit "42") (lit "digest")] /\
  outcome (send_telegram rejecting_world (lit "digest"))
  = Raise (RuntimeError (lit "Telegram error: Bad Request: chat not found")).
Proof.
  assert (Hn : BOT_TOKEN no_token_world = [] \/ CHAT_ID no_token_world = [])
    by (left; reflexivity).
  assert (Ht : BOT_TOKEN rejecting_world <> []) by discriminate.
  assert (Hc : CHAT_ID rejecting_world <> []) by discriminate.
  split; [exact Hn|].
  split; [exact (proj1 (send_telegram_one_attempt no_token_world (lit "digest")) Hn)|].
  split; [exact Ht|]. split; [exact Hc|].
  destruct (proj2 (send_telegram_one_attempt rejecting_world (lit "digest")) Ht Hc)
    as [Hev Hout].
  split; [rewrite Hev; reflexivity | rewrite Hout; reflexivity].
Defined.

(** ** The effect monad *)

Lemma outcome_mbind {A B : Type} (c : M A) (k : A -> M B) :
  outcome (mbind c k)
  = match outcome c with Ok a => outcome (k a) | Raise e => Raise e end.
Proof.
  destruct c as [l [a|e]]; simpl; [|reflexivity].
  destruct (k a); reflexivity.
Qed.

Lemma events_mbind {A B : Type} (c : M A) (k : A -> M B) :
  events (mbind c k)
  = events c ++ match outcome c with Ok a => events (k a) | Raise _ => [] end.
Proof.
  destruct c as [l [a|e]]; simpl; [|now rewrite app_nil_r].
  destruct (k a); reflexivity.
Qed.

Lemma M_eta {A : Type} (c : M A) : c = (events c, outcome c).
Proof. destruct c; reflexivity. Qed.

(** ** Main flow: the loop over the candidates *)

Lemma extract_text_logs (w : World) (url fallback_html : pystr) :
  forallb is_log (events (extract_text w url fallback_html)) = true.
Proof.
  unfold extract_text. destruct (Article w) as [article|]; [|reflexivity].
  destruct (article url) as [[|c text]|exc]; reflexivity.
Qed.

Lemma process_entry_outcome (w : World) (c : Candidate) (processed : list Item) :
  outcome (process_entry w c processed)
  = Ok (match model_calls w c with
        | Ok it => processed ++ [it]
        | Raise _ => processed
        end).
Proof.
  destruct c as [[[title link] summary_html] published].
  unfold process_entry, model_calls, cand_link, cand_summary, cand_title. simpl fst. simpl snd.
  rewrite outcome_mbind. simpl outcome at 1. cbv iota.
  rewrite outcome_mbind, extract_text_value.
  destruct (summarize w (article_text w link summary_html)) as [en|e]; simpl; [|reflexivity].
  destruct (translate_persian w en) as [fa|e]; reflexivity.
Qed.

Lemma process_entry_logs (w : World) (c : Candidate) (processed : list Item) :
  forallb is_log (events (process_entry w c processed)) = true.
Proof.
  destruct c as [[[title link] summary_html] published].
  unfold process_entry.
  rewrite events_mbind. simpl. rewrite events_mbind, extract_text_value.
  rewrite forallb_app, extract_text_logs. simpl.
  destruct (summarize w (article_text w link summary_html)) as [en|e]; simpl; [|reflexivity].
  destruct (translate_persian w en) as [fa|e]; reflexivity.
Qed.

Lemma process_entry_logs_failure (w : World) (c : Candidate) (processed : list Item) (exc : exn) :
  model_calls w c = Raise exc ->
  In (EvLog ERROR OPENAI_FAILED_MSG [ArgStr (cand_title c); ArgExn exc])
     (events (process_entry w c processed)).
Proof.
  destruct c as [[[title link] summary_html] published].
  unfold process_entry, model_calls, cand_link, cand_summary, cand_title. simpl fst. simpl snd.
  intros Hfail.
  rewrite events_mbind. simpl. right. rewrite events_mbind, extract_text_value.
  apply in_or_app. right.
  destruct (summarize w (article_text w link summary_html)) as [en|e]; simpl in *.
  - destruct (translate_persian w en) as [fa|e]; simpl in *; [discriminate|].
    inversion Hfail; subst. left. reflexivity.
  - inversion Hfail; subst. left. reflexivity.
Qed.

Lemma successes_cons (w : World) (c : Candidate) (rest : list Candidate) :
  successes w (c :: rest)
  = match model_calls w c with Ok it => it :: successes w rest | Raise _ => successes w rest end.
Proof. unfold successes. simpl. destruct (model_calls w c); reflexivity. Qed.

Lemma process_loop_outcome (w : World) (entries : list Candidate) :
  forall processed,
    (length processed <= MAX_ITEMS)%nat ->
    outcome (process_loop w entries processed)
    = Ok (processed ++ firstn (MAX_ITEMS - length processed) (successes w entries)).
Proof.
  induction entries as [|c rest IH]; intros processed Hlen.
  - simpl. rewrite firstn_nil, app_nil_r. reflexivity.
  - cbn [process_loop]. destruct (Nat.leb_spec MAX_ITEMS (length processed)) as [Hfull|Hroom].
    + replace (MAX_ITEMS - length processed)%nat with 0%nat by lia.
      simpl. rewrite app_nil_r. reflexivity.
    + rewrite outcome_mbind, process_entry_outcome, successes_cons.
      destruct (model_calls w c) as [it|e].
      * rewrite IH by (rewrite length_app; simpl; lia).
        rewrite length_app. simpl length.
        replace (MAX_ITEMS - length processed)%nat
          with (S (MAX_ITEMS - (length processed + 1)))%nat by lia.
        rewrite firstn_cons, <- app_assoc. reflexivity.
      * apply IH. lia.
Qed.

Lemma process_loop_logs (w : World) (entries : list Candidate) :
  forall processed, forallb is_log (events (process_loop w entries processed)) = true.
Proof.
  induction entries as [|c rest IH]; intros processed; cbn [process_loop]; [reflexivity|].
  destruct (MAX_ITEMS <=? length processed)%nat; [reflexivity|].
  rewrite events_mbind, process_entry_outcome, forallb_app, process_entry_logs, IH.
  reflexivity.
Qed.

Lemma process_loop_reaches (w : World) (c : Candidate) (after : list Candidate) (exc : exn)
      (before : list Candidate) :
  model_calls w c = Raise exc ->
  forall processed,
    (length processed + length (successes w before) < MAX_ITEMS)%nat ->
    In (EvLog ERROR OPENAI_FAILED_MSG [ArgStr (cand_title c); ArgExn exc])
       (events (process_loop w (before ++ c :: after) processed)).
Proof.
  intros Hfail. induction before as [|b before IH]; intros processed Hroom.
  - cbn [app process_loop].
    destruct (Nat.leb_spec MAX_ITEMS (length processed)) as [Hfull|_]; [simpl in Hroom; lia|].
    rewrite events_mbind. apply in_or_app. left.
    now apply process_entry_logs_failure.
  - cbn [app process_loop]. rewrite successes_cons in Hroom.
    destruct (Nat.leb_spec MAX_ITEMS (length processed)) as [Hfull|_]; [lia|].
    rewrite events_mbind, process_entry_outcome. apply in_or_app. right.
    apply IH. destruct (model_calls w b); [rewrite length_app|]; simpl in *; lia.
Qed.

Lemma logs_only (l : list event) :
  forallb is_log l = true ->
  filter is_delivery l = [] /\ filter is_http_post l = [].
Proof.
  induction l as [|ev l IH]; simpl; [auto|].
  intros H. apply andb_prop in H. destruct H as [Hev Hl].
  destruct ev; simpl in *; try discriminate. auto.
Qed.

Lemma send_telegram_delivery (w : World) (text : pystr) :
  filter is_delivery (events (send_telegram w text)) = [EvSendTelegram text].
Proof.
  unfold send_telegram.
  destruct (BOT_TOKEN w) as [|t0 token]; [reflexivity|].
  destruct (CHAT_ID w) as [|c0 chat]; [reflexivity|]. simpl.
  destruct (requests_post w _ _ text) as [resp|e]; simpl; [|reflexivity].
  destruct (resp_ok resp); reflexivity.
Qed.

Lemma finish_run_delivery (w : World) (it : Item) (items : list Item) :
  filter is_delivery (events (finish_run w (it :: items)))
  = [EvSendTelegram (build_message (it :: items))].
Proof.
  unfold finish_run. rewrite events_mbind, filter_app, send_telegram_delivery.
  destruct (outcome (send_telegram w _)); reflexivity.
Qed.

Lemma process_loop_items (w : World) (entries : list Candidate) :
  outcome (process_loop w entries []) = Ok (capped_items w entries).
Proof.
  rewrite process_loop_outcome by (simpl; lia).
  simpl length. rewrite Nat.sub_0_r. reflexivity.
Qed.

Lemma run_once_on_events (w : World) (entries : list Candidate) :
  events (run_once_on w entries)
  = events (process_loop w entries []) ++ events (finish_run w (capped_items w entries)).
Proof. unfold run_once_on. rewrite events_mbind, process_loop_items. reflexivity. Qed.

Lemma run_once_on_outcome (w : World) (entries : list Candidate) :
  outcome (run_once_on w entries) = outcome (finish_run w (capped_items w entries)).
Proof. unfold run_once_on. rewrite outcome_mbind, process_loop_items. reflexivity. Qed.

Lemma run_once_on_delivery (w : World) (entries : list Candidate) :
  filter is_delivery (events (run_once_on w entries))
  = filter is_delivery (events (finish_run w (capped_items w entries))).
Proof.
  rewrite run_once_on_events, filter_app.
  destruct (logs_only _ (process_loop_logs w entries [])) as [Hd _].
  rewrite Hd. reflexivity.
Qed.

Lemma run_once_events (w : World) :
  events (run_once w)
  = EvLog INFO FETCHING_MSG []
    :: match fetch_recent_entries w with
       | Ok entries => events (run_once_on w entries)
       | Raise _ => []
       end.
Proof.
  unfold run_once, mbind, emit, lift.
  destruct (fetch_recent_entries w) as [entries|e]; [|reflexivity].
  destruct (run_once_on w entries); reflexivity.
Qed.

(** C3.  The loop of [run_once] ends with at most five items: the first five
    candidates for which both model calls succeed.  When there is none, the
    run makes no call to [send_telegram] and no HTTP call, its last event is
    the warning, and it returns normally.  When there is one at least, the
    run calls [send_telegram] exactly once, with the message built from these
    1 to 5 items.  A call to [send_telegram] in a whole run therefore carries
    a message built from 1 to 5 processed items. *)
Theorem delivery_iff_item_processed (w : World) (entries : list Candidate) :
  let items := capped_items w entries in
  outcome (process_loop w entries []) = Ok items /\
  (items = [] ->
   filter is_delivery (events (run_once_on w entries)) = [] /\
   filter is_http_post (events (run_once_on w entries)) = [] /\
   (exists l, events (run_once_on w entries) = l ++ [EvLog WARNING NO_ITEMS_MSG []]) /\
   outcome (run_once_on w entries) = Ok tt) /\
  (items <> [] ->
   (1 <= length items <= 5)%nat /\
   filter is_delivery (events (run_once_on w entries))
   = [EvSendTelegram (build_message items)]) /\
  (forall text,
      In (EvSendTelegram text) (events (run_once w)) ->
      exists fetched,
        fetch_recent_entries w = Ok fetched /\
        (1 <= length (capped_items w fetched) <= 5)%nat /\
        text = build_message (capped_items w fetched)).
Proof.
  intros items.
  assert (Hcap : forall es, (length (capped_items w es) <= 5)%nat)
    by (intros; apply firstn_le_length).
  assert (Hsome : forall es,
             capped_items w es <> [] ->
             (1 <= length (capped_items w es) <= 5)%nat /\
             filter is_delivery (events (run_once_on w es))
             = [EvSendTelegram (build_message (capped_items w es))]).
  { intros es Hne. specialize (Hcap es). rewrite run_once_on_delivery.
    destruct (capped_items w es) as [|it its]; [contradiction|].
    rewrite finish_run_delivery. simpl in *. split; [lia|reflexivity]. }
  assert (Hnone : forall es,
             capped_items w es = [] ->
             filter is_delivery (events (run_once_on w es)) = []).
  { intros es He. rewrite run_once_on_delivery, He. reflexivity. }
  split; [apply process_loop_items|]. split; [|split].
  - intros Hempty. fold items in Hempty.
    split; [now apply Hnone|].
    rewrite run_once_on_events, run_once_on_outcome. fold items. rewrite Hempty.
    split; [|split].
    + rewrite filter_app.
      destruct (logs_only _ (process_loop_logs w entries [])) as [_ Hp].
      rewrite Hp. reflexivity.
    + eexists. reflexivity.
    + reflexivity.
  - apply Hsome.
  - intros text Hin. rewrite run_once_events in Hin.
    destruct Hin as [Hin|Hin]; [discriminate|].
    destruct (fetch_recent_entries w) as [fetched|e]; [|contradiction].
    exists fetched. split; [reflexivity|].
    assert (Hf : In (EvSendTelegram text) (filter is_delivery (events (run_once_on w fetched))))
      by (apply filter_In; split; [exact Hin|reflexivity]).
    destruct (capped_items w fetched) as [|it its] eqn:Eits.
    + rewrite (Hnone fetched Eits) in Hf. contradiction.
    + assert (Hne : capped_items w fetched <> []) by (rewrite Eits; discriminate).
      destruct (Hsome fetched Hne) as [Hlen Hdel].
      rewrite Hdel, Eits in Hf. rewrite Eits in Hlen.
      destruct Hf as [Hf|[]]. inversion Hf. split; [exact Hlen|reflexivity].
Qed.

Lemma delivery_iff_item_processed_witness :
  capped_items quiet_world [] = [] /\
  outcome (run_once_on quiet_world []) = Ok tt /\
  filter is_delivery (events (run_once_on quiet_world [])) = [] /\
  capped_items quiet_world [cand1; cand2; cand3] <> [] /\
  (1 <= length (capped_items quiet_world [cand1; cand2; cand3]) <= 5)%nat /\
  filter is_delivery (events (run_once_on quiet_world [cand1; cand2; cand3]))
  = [EvSendTelegram (build_message (capped_items quiet_world [cand1; cand2; cand3]))].
Proof.
  assert (H0 : capped_items quiet_world [] = []) by reflexivity.
  assert (H3 : capped_items quiet_world [cand1; cand2; cand3] <> [])
    by (vm_compute; discriminate).
  destruct (delivery_iff_item_processed quiet_world []) as (_ & Hnone & _ & _).
  destruct (delivery_iff_item_processed quiet_world [cand1; cand2; cand3])
    as (_ & _ & Hsome & _).
  destruct (Hnone H0) as (Hd & _ & _ & Hout).
  destruct (Hsome H3) as (Hlen & Hdel).
  repeat split; try assumption; apply Hlen.
Defined.

(** ** Main flow: what the naive cutoff means for a whole run

    The reader returns the empty list or raises, so a whole run either ends
    with the exception or with the warning: it never calls [send_telegram]. *)

Lemma run_once_never_delivers (w : World) :
  filter is_delivery (events (run_once w)) = [].
Proof.
  rewrite run_once_events. cbn [filter is_delivery].
  destruct (fetch_recent_entries w) as [entries|e] eqn:Hfetch; [|reflexivity].
  apply fetch_recent_entries_returns_nothing in Hfetch. subst entries. reflexivity.
Qed.

(** ** Main flow: a failing model call *)

Lemma successes_drop (w : World) (before after : list Candidate) (c : Candidate) (exc : exn) :
  model_calls w c = Raise exc ->
  successes w (before ++ c :: after) = successes w (before ++ after).
Proof.
  intros Hfail. unfold successes. rewrite !flat_map_app. simpl. rewrite Hfail. reflexivity.
Qed.

(** C4.  When one of the two model calls fails for a candidate, the
    exception is caught in the loop of [run_once]: the loop goes on and ends
    with the very items it ends with when that candidate is left out of the
    list, the run has the same outcome and makes the same call to
    [send_telegram] as without it, and, when the candidate is reached (fewer
    than five items came before it), an error is logged with its title and
    the exception. *)
Theorem model_failure_drops_only_that_entry
        (w : World) (before after : list Candidate) (c : Candidate) (exc : exn) :
  model_calls w c = Raise exc ->
  outcome (process_loop w (before ++ c :: after) [])
  = outcome (process_loop w (before ++ after) []) /\
  (exists items, outcome (process_loop w (before ++ c :: after) []) = Ok items) /\
  outcome (run_once_on w (before ++ c :: after)) = outcome (run_once_on w (before ++ after)) /\
  filter is_delivery (events (run_once_on w (before ++ c :: after)))
  = filter is_delivery (events (run_once_on w (before ++ after))) /\
  ((length (successes w before) < MAX_ITEMS)%nat ->
   In (EvLog ERROR OPENAI_FAILED_MSG [ArgStr (cand_title c); ArgExn exc])
      (events (run_once_on w (before ++ c :: after)))).
Proof.
  intros Hfail.
  assert (Hsame : capped_items w (before ++ c :: after) = capped_items w (before ++ after))
    by (unfold capped_items; now rewrite (successes_drop w before after c exc Hfail)).
  split; [|split; [|split; [|split]]].
  - rewrite !process_loop_items, Hsame. reflexivity.
  - eexists. apply process_loop_items.
  - rewrite !run_once_on_outcome, Hsame. reflexivity.
  - rewrite !run_once_on_delivery, Hsame. reflexivity.
  - intros Hroom. rewrite run_once_on_events. apply in_or_app. left.
    apply process_loop_reaches; [exact Hfail|simpl; lia].
Qed.

Lemma model_failure_drops_only_that_entry_witness :
  model_calls quiet_world cand2 = Raise (LibraryError (lit "rate limit")) /\
  outcome (process_loop quiet_world ([cand1] ++ cand2 :: [cand3]) [])
  = outcome (process_loop quiet_world ([cand1] ++ [cand3]) []) /\
  outcome (process_loop quiet_world [cand1; cand3] [])
  = Ok [(lit "First", lit "A summary.", lit "A summary.");
        (lit "Third", lit "A summary.", lit "A summary.")].
Proof.
  assert (Hfail : model_calls quiet_world cand2 = Raise (LibraryError (lit "rate limit")))
    by reflexivity.
  split; [exact Hfail|].
  split; [|reflexivity].
  exact (proj1 (model_failure_drops_only_that_entry quiet_world [cand1] [cand3] cand2
                  (LibraryError (lit "rate limit")) Hfail)).
Defined.

(** ** Scheduler *)

Lemma day_bounds : 0 <= HALF_PAST_NINE < US_PER_DAY /\ 0 < US_PER_DAY.
Proof. vm_compute. repeat split; congruence. Qed.



Lemma next_run_value (tz : tzone) (clock : Z) :
  let now_teh := astimezone tz (now_in_utc clock) in
  let at_0930 := replace_time now_teh 9 30 in
  next_run tz clock
  = Ok (if wall at_0930 <=? wall now_teh
        then (dt_add_delta at_0930 (timedelta_days 1),
              wall at_0930 + US_PER_DAY - wall now_teh)
        else (at_0930, wall at_0930 - wall now_teh)).
Proof.
  unfold next_run, dt_ge, dt_diff, astimezone, replace_time, now_in_utc, dt_add_delta,
    timedelta_days, utc_instant, timezone_utc. cbn [tzinfo wall bind].
  set (o := tz (clock - 0)). set (W := clock - 0 + o).
  set (T := W / US_PER_DAY * US_PER_DAY + 9 * US_PER_HOUR + 30 * 60 * US_PER_SECOND).
  replace (T - o <=? W - o) with (T <=? W)
    by (apply eq_true_iff_eq; rewrite !Z.leb_le; lia).
  destruct (T <=? W); cbn [tzinfo wall bind]; do 2 f_equal; lia.
Qed.

Lemma loop_body_value (tz : tzone) (t : Turn) (target : datetime) (sleep_us : Z) :
  next_run tz (loop_clock t) = Ok (target, sleep_us) ->
  loop_body tz t
  = (sleep_events target sleep_us ++ events (run_once (run_world t)),
     outcome (run_once (run_world t))).
Proof.
  intros Hn. unfold loop_body. rewrite Hn. unfold lift, mbind, emit. simpl.
  destruct (run_once (run_world t)); reflexivity.
Qed.



(** At 12:00 UTC, 15:30 in Tehran, the loop sleeps 18 hours. *)
Example next_run_after_target :
  next_run tehran_fixed (wall_of_fields 2024 1 2 12 0 0)
  = Ok ({| wall := wall_of_fields 2024 1 3 9 30 0; tzinfo := Some (tehran_fixed 0) |},
        18 * US_PER_HOUR).
Proof. vm_compute. reflexivity. Qed.

(** At 05:00 UTC, 08:30 in Tehran, it sleeps one hour. *)
Example next_run_before_target :
  next_run tehran_fixed (wall_of_fields 2024 1 2 5 0 0)
  = Ok ({| wall := wall_of_fields 2024 1 2 9 30 0; tzinfo := Some (tehran_fixed 0) |},
        1 * US_PER_HOUR).
Proof. vm_compute. reflexivity. Qed.

(** ** Scheduler: an exception in a turn *)

Lemma next_run_total (tz : tzone) (clock : Z) :
  exists target sleep_us, next_run tz clock = Ok (target, sleep_us).
Proof.
  pose proof (next_run_value tz clock) as H. cbv zeta in H.
  destruct (_ <=? _) in H; eauto.
Qed.

Lemma main_loop_crash (tz : tzone) (turns : nat -> Turn) (i n : nat) (e : exn) :
  outcome (run_once (run_world (turns i))) = Raise e ->
  exists target sleep_us,
    next_run tz (loop_clock (turns i)) = Ok (target, sleep_us) /\
    main_loop tz turns i (S n)
    = (sleep_events target sleep_us ++ events (run_once (run_world (turns i))), Crashed e).
Proof.
  intros Hrun.
  destruct (next_run_total tz (loop_clock (turns i))) as (target & sleep_us & Hn).
  exists target, sleep_us. split; [exact Hn|].
  cbn [main_loop]. rewrite (loop_body_value tz (turns i) target sleep_us Hn), Hrun.
  reflexivity.
Qed.

(** C9, as the code has it.  The [while] loop has no handler: an exception
    raised by the pipeline run of a turn leaves the loop.  Whatever the number
    of turns asked for, the trace ends with the events of that run, nothing is
    logged about the exception, and no later turn runs. *)
Theorem fatal_error_ends_the_loop
        (tz : tzone) (turns : nat -> Turn) (i n : nat) (e : exn) :
  outcome (run_once (run_world (turns i))) = Raise e ->
  exists target sleep_us,
    next_run tz (loop_clock (turns i)) = Ok (target, sleep_us) /\
    main_loop tz turns i (S n)
    = (sleep_events target sleep_us ++ events (run_once (run_world (turns i))), Crashed e).
Proof. apply main_loop_crash. Qed.

Lemma fatal_error_ends_the_loop_witness :
  outcome (run_once (run_world (turns_kpmg_down 0%nat)))
  = Raise (LibraryError (lit "Remote end closed connection")) /\
  exists target sleep_us,
    next_run tehran_fixed (loop_clock (turns_kpmg_down 0%nat)) = Ok (target, sleep_us) /\
    main_loop tehran_fixed turns_kpmg_down 0 3
    = (sleep_events target sleep_us ++ events (run_once (run_world (turns_kpmg_down 0%nat))),
       Crashed (LibraryError (lit "Remote end closed connection"))).
Proof.
  assert (Hrun : outcome (run_once (run_world (turns_kpmg_down 0%nat)))
                 = Raise (LibraryError (lit "Remote end closed connection")))
    by reflexivity.
  split; [exact Hrun|].
  exact (fatal_error_ends_the_loop tehran_fixed turns_kpmg_down 0 2
           (LibraryError (lit "Remote end closed connection")) Hrun).
Defined.

(** C9 as stated fails: when the run of the first turn raises, no number of
    turns makes a second run start. *)
Lemma loop_does_not_survive_fatal_error :
  ~ (forall (tz : tzone) (turns : nat -> Turn) (e : exn),
        outcome (run_once (run_world (turns 0%nat))) = Raise e ->
        exists n, (2 <= runs_started (fst (main_loop tz turns 0 n)))%nat).
Proof.
  intros H.
  destruct (H tehran_fixed turns_kpmg_down
              (LibraryError (lit "Remote end closed connection")) eq_refl) as [n Hn].
  destruct n as [|n].
  - unfold runs_started in Hn. cbn in Hn. lia.
  - destruct (main_loop_crash tehran_fixed turns_kpmg_down 0 n
                (LibraryError (lit "Remote end closed connection")) eq_refl)
      as (target & sleep_us & _ & Hloop).
    rewrite Hloop in Hn. cbn [fst] in Hn.
    unfold runs_started in Hn. rewrite filter_app, length_app in Hn.
    vm_compute in Hn. lia.
Qed.

(** * Further properties *)

(** ** Feed Reader: when the reader returns *)









(** ** Feed Reader: the sort on its own *)

Lemma dt_lt_aware (a b : datetime) :
  aware a -> aware b -> dt_lt a b = Ok (utc_instant a <? utc_instant b).
Proof.
  unfold aware, dt_lt, utc_instant.
  destruct (tzinfo a), (tzinfo b); intros Ha Hb; try contradiction; reflexivity.
Qed.

Lemma insert_newest_total (c : Candidate) (l : list Candidate) :
  aware (cand_published c) ->
  Forall (fun d => aware (cand_published d)) l ->
  exists r, insert_newest c l = Ok r.
Proof.
  intros Hc. induction 1 as [|d l Hd _ IH]; simpl; [eauto|].
  rewrite (dt_lt_aware _ _ Hc Hd). simpl.
  destruct (_ <? _); [|eauto].
  destruct IH as [r ->]. simpl. eauto.
Qed.

Lemma insert_newest_stable (t : Z) (c : Candidate) (l : list Candidate) :
  forall r,
    insert_newest c l = Ok r ->
    filter (fun x => utc_instant (cand_published x) =? t) r
    = filter (fun x => utc_instant (cand_published x) =? t) (c :: l).
Proof.
  induction l as [|d l IH]; simpl; intros r H.
  - inversion H; reflexivity.
  - bind_inv H. destruct a.
    + bind_inv H. inversion H; subst r. apply dt_lt_true in Ha.
      simpl. rewrite (IH a Ha0). simpl.
      destruct (Z.eqb_spec (utc_instant (cand_published c)) t);
        destruct (Z.eqb_spec (utc_instant (cand_published d)) t); try reflexivity; lia.
    + inversion H; subst r. reflexivity.
Qed.

Lemma sort_newest_stable (t : Z) (l : list Candidate) :
  forall r,
    sort_newest l = Ok r ->
    filter (fun x => utc_instant (cand_published x) =? t) r
    = filter (fun x => utc_instant (cand_published x) =? t) l.
Proof.
  induction l as [|c l IH]; simpl; intros r H.
  - inversion H; reflexivity.
  - bind_inv H. rewrite (insert_newest_stable t c a r H). simpl.
    rewrite (IH a Ha). reflexivity.
Qed.

(** X3.  On candidates whose publication times are all aware, as the reader
    builds them, the sort never raises: it gives a rearrangement of the list
    that is ordered newest first, and candidates published at the same
    instant keep the order they had. *)
Theorem sort_newest_total_and_stable (l : list Candidate) :
  Forall (fun c => aware (cand_published c)) l ->
  exists r,
    sort_newest l = Ok r /\
    Permutation l r /\
    StronglySorted newest_first r /\
    forall t, filter (fun x => utc_instant (cand_published x) =? t) r
              = filter (fun x => utc_instant (cand_published x) =? t) l.
Proof.
  intros Haware.
  assert (Hex : exists r, sort_newest l = Ok r).
  { induction Haware as [|c l Hc Hl IH]; simpl; [eauto|].
    destruct IH as [s Hs]. rewrite Hs. simpl.
    apply insert_newest_total; [exact Hc|].
    eapply Permutation_Forall; [apply sort_newest_perm; exact Hs|exact Hl]. }
  destruct Hex as [r Hr]. exists r.
  split; [exact Hr|]. split; [now apply sort_newest_perm|].
  split; [now apply (sort_newest_sorted l)|].
  intros t. now apply sort_newest_stable.
Qed.

Lemma sort_newest_total_and_stable_witness :
  Forall (fun c => aware (cand_published c)) [cand3; cand1; cand2] /\
  sort_newest [cand3; cand1; cand2] = Ok [cand1; cand2; cand3] /\
  exists r, sort_newest [cand3; cand1; cand2] = Ok r /\ StronglySorted newest_first r.
Proof.
  assert (Ha : Forall (fun c => aware (cand_published c)) [cand3; cand1; cand2])
    by (repeat constructor; discriminate).
  split; [exact Ha|]. split; [reflexivity|].
  destruct (sort_newest_total_and_stable [cand3; cand1; cand2] Ha) as (r & Hr & _ & Hs & _).
  exists r. split; assumption.
Defined.

(** ** Main flow: the cap, the order and the origin of the items *)














(** ** Main flow: the outcome of a run and its last log record *)

Lemma extract_text_processing (w : World) (url fallback_html : pystr) :
  forallb is_processing_event (events (extract_text w url fallback_html)) = true.
Proof.
  unfold extract_text. destruct (Article w) as [article|]; [|reflexivity].
  destruct (article url) as [[|c text]|exc]; reflexivity.
Qed.

Lemma process_entry_processing (w : World) (c : Candidate) (processed : list Item) :
  forallb is_processing_event (events (process_entry w c processed)) = true.
Proof.
  destruct c as [[[title link] summary_html] published].
  unfold process_entry.
  rewrite events_mbind. simpl. rewrite events_mbind, extract_text_value.
  rewrite forallb_app, extract_text_processing. simpl.
  destruct (summarize w (article_text w link summary_html)) as [en|e]; simpl; [|reflexivity].
  destruct (translate_persian w en) as [fa|e]; reflexivity.
Qed.

Lemma process_loop_processing (w : World) (entries : list Candidate) :
  forall processed,
    forallb is_processing_event (events (process_loop w entries processed)) = true.
Proof.
  induction entries as [|c rest IH]; intros processed; cbn [process_loop]; [reflexivity|].
  destruct (MAX_ITEMS <=? length processed)%nat; [reflexivity|].
  rewrite events_mbind, process_entry_outcome, forallb_app, process_entry_processing, IH.
  reflexivity.
Qed.

Lemma processing_events_filtered (l : list event) :
  forallb is_processing_event l = true ->
  filter is_sent_log l = [] /\ filter is_run_start l = [] /\ filter is_sleep l = [].
Proof.
  induction l as [|ev l IH]; simpl; [auto|].
  intros H. apply andb_prop in H. destruct H as [Hev Hl].
  destruct (IH Hl) as (H1 & H2 & H3). unfold is_processing_event in Hev.
  destruct (is_run_start ev), (is_sleep ev), (is_sent_log ev); simpl in Hev;
    try discriminate. auto.
Qed.

Lemma send_telegram_events (w : World) (text : pystr) :
  filter is_sent_log (events (send_telegram w text)) = [] /\
  filter is_run_start (events (send_telegram w text)) = [] /\
  filter is_sleep (events (send_telegram w text)) = [].
Proof.
  unfold send_telegram.
  destruct (BOT_TOKEN w) as [|t0 token]; [repeat split|].
  destruct (CHAT_ID w) as [|c0 chat]; [repeat split|]. simpl.
  destruct (requests_post w _ _ text) as [resp|e]; simpl; [|repeat split].
  destruct (resp_ok resp); repeat split.
Qed.

Lemma finish_run_nonempty (w : World) (it : Item) (items : list Item) :
  let message := build_message (it :: items) in
  outcome (finish_run w (it :: items)) = outcome (send_telegram w message) /\
  events (finish_run w (it :: items))
  = events (send_telegram w message)
    ++ match outcome (send_telegram w message) with
       | Ok _ => [EvLog INFO SENT_MSG [ArgLen (length message)]]
       | Raise _ => []
       end.
Proof.
  intros message. unfold finish_run. fold message.
  rewrite outcome_mbind, events_mbind.
  destruct (outcome (send_telegram w message)) as [[]|e]; split; reflexivity.
Qed.

(** X7.  Apart from the reader, only the delivery can make a run fail: the
    run returns normally when no item was processed, and has the outcome of
    [send_telegram] otherwise.  The record of a sent message is logged once,
    with the length of the message, exactly when an item was processed and
    [send_telegram] returned; that length is at most 4000. *)
Theorem run_fails_only_on_delivery (w : World) (entries : list Candidate) :
  let items := capped_items w entries in
  let message := build_message items in
  outcome (run_once_on w entries)
  = match items with
    | [] => Ok tt
    | _ :: _ => outcome (send_telegram w message)
    end /\
  filter is_sent_log (events (run_once_on w entries))
  = match items, outcome (send_telegram w message) with
    | _ :: _, Ok _ => [EvLog INFO SENT_MSG [ArgLen (length message)]]
    | _, _ => []
    end /\
  (length message <= 4000)%nat.
Proof.
  intros items message.
  destruct (processing_events_filtered _ (process_loop_processing w entries [])) as (Hs & _ & _).
  rewrite run_once_on_outcome, run_once_on_events, filter_app, Hs. fold items.
  split; [|split].
  - unfold message. destruct items as [|it its]; [reflexivity|].
    apply (finish_run_nonempty w it its).
  - unfold message. destruct items as [|it its]; [reflexivity|].
    destruct (finish_run_nonempty w it its) as [_ Hev]. rewrite Hev, filter_app.
    destruct (send_telegram_events w (build_message (it :: its))) as (Hsent & _ & _).
    rewrite Hsent.
    destruct (outcome (send_telegram w (build_message (it :: its)))); reflexivity.
  - apply firstn_le_length.
Qed.

(** ** Message Builder: what the message is made of *)

Lemma escape_char_clean (c : Z) : forallb clean (escape_char c) = true.
Proof.
  unfold escape_char.
  destruct (Z.eqb_spec c 38); [reflexivity|].
  destruct (Z.eqb_spec c 60); [reflexivity|].
  destruct (Z.eqb_spec c 62); [reflexivity|].
  destruct (Z.eqb_spec c 34); [reflexivity|].
  destruct (Z.eqb_spec c 39); [reflexivity|].
  simpl. unfold clean, is_markup_char.
  repeat match goal with H : c <> _ |- _ => apply Z.eqb_neq in H; rewrite H; clear H end.
  reflexivity.
Qed.

Lemma html_escape_clean (s : pystr) : forallb clean (html_escape s) = true.
Proof.
  unfold html_escape. induction s as [|c s IH]; simpl; [reflexivity|].
  rewrite forallb_app, escape_char_clean, IH. reflexivity.
Qed.

Lemma digits_clean (d : Decimal.uint) :
  forallb clean (lit (NilEmpty.string_of_uint d)) = true.
Proof. induction d; simpl; auto. Qed.

Lemma str_of_nat_clean (n : nat) : forallb clean (str_of_nat n) = true.
Proof.
  unfold str_of_nat, NilZero.string_of_uint.
  destruct (Nat.to_uint n) eqn:E; try (rewrite <- E; apply digits_clean).
  reflexivity.
Qed.

Lemma py_join_forallb (P : Z -> bool) (sep : pystr) (parts : list pystr) :
  forallb P sep = true ->
  Forall (fun p => forallb P p = true) parts ->
  forallb P (py_join sep parts) = true.
Proof.
  intros Hsep. induction 1 as [|p parts Hp Hparts IH]; [reflexivity|].
  destruct parts as [|q parts]; [exact Hp|].
  change (py_join sep (p :: q :: parts)) with (p ++ sep ++ py_join sep (q :: parts)).
  rewrite !forallb_app, Hp, Hsep, IH. reflexivity.
Qed.

Lemma forallb_firstn {A : Type} (P : A -> bool) (n : nat) (l : list A) :
  forallb P l = true -> forallb P (firstn n l) = true.
Proof.
  intros H. rewrite <- (firstn_skipn n l), forallb_app in H.
  apply andb_prop in H. tauto.
Qed.

Lemma block_clean (idx : nat) (it : Item) :
  Forall (fun p => forallb clean p = true) (block idx it).
Proof.
  destruct it as [[title en] fa]. unfold block.
  repeat constructor;
    rewrite ?forallb_app, ?str_of_nat_clean, ?html_escape_clean; reflexivity.
Qed.

Lemma build_lines_clean (items : list Item) :
  forall idx, Forall (fun p => forallb clean p = true) (build_lines idx items).
Proof.
  induction items as [|it items IH]; intros idx; cbn [build_lines]; [constructor|].
  apply Forall_app. split; [apply block_clean|apply IH].
Qed.

(** X8.  The message never holds a raw [<], [>], double quote or single
    quote, whatever the titles and the summaries: the fixed text has none and
    every title and summary goes through [html.escape]; cutting the text at
    4000 characters keeps that. *)
Theorem build_message_has_no_raw_markup (items : list Item) :
  forallb (fun c => negb (is_markup_char c)) (build_message items) = true.
Proof.
  unfold build_message. apply forallb_firstn.
  apply (py_join_forallb clean); [reflexivity|apply build_lines_clean].
Qed.

Lemma firstn_app_short {A : Type} (n : nat) (h x : list A) :
  (length h <= n)%nat -> firstn n (h ++ x) = h ++ firstn (n - length h) x.
Proof. intros H. rewrite firstn_app, firstn_all2 by exact H. reflexivity. Qed.

(** X9.  For a list of one item or more the message is never empty: it
    begins with the header line of the first block, the pushpin followed by
    " Insight #1:", and a line feed. *)
Theorem build_message_starts_with_first_header (it : Item) (items : list Item) :
  block_header 1 = 128204 :: lit " Insight #1:" /\
  exists rest, build_message (it :: items) = block_header 1 ++ [10] ++ rest.
Proof.
  split; [reflexivity|].
  destruct it as [[title en] fa]. unfold build_message. cbn [build_lines block app].
  match goal with
  | |- context [py_join ?sep (?h :: ?t :: ?more)] =>
      change (py_join sep (h :: t :: more)) with (h ++ sep ++ py_join sep (t :: more));
      change h with (block_header 1)
  end.
  rewrite firstn_app_short by (apply Nat.leb_le; reflexivity).
  rewrite firstn_app_short by (apply Nat.leb_le; reflexivity).
  eexists. reflexivity.
Qed.

Lemma block_length (idx : nat) (it : Item) : length (block idx it) = 5%nat.
Proof. destruct it as [[title en] fa]. reflexivity. Qed.

Lemma build_lines_length (items : list Item) :
  forall idx, length (build_lines idx items) = (5 * length items)%nat.
Proof.
  induction items as [|it items IH]; intros idx; cbn [build_lines]; [reflexivity|].
  rewrite length_app, block_length, IH. simpl length. lia.
Qed.

Lemma build_lines_nth (items : list Item) :
  forall idx k it,
    nth_error items k = Some it ->
    nth_error (build_lines idx items) (5 * k) = Some (block_header (idx + k)) /\
    nth_error (build_lines idx items) (5 * k + 1)
    = Some ([128478] ++ lit " Title: " ++ html_escape (item_title it)).
Proof.
  induction items as [|it0 items IH]; intros idx k it Hk; [destruct k; discriminate|].
  cbn [build_lines]. destruct k as [|k].
  - inversion Hk; subst it0. destruct it as [[title en] fa].
    rewrite Nat.add_0_r. split; reflexivity.
  - simpl in Hk. destruct (IH (S idx) k it Hk) as [Hh Ht].
    replace (5 * S k)%nat with (5 + 5 * k)%nat by lia.
    rewrite !nth_error_app2 by (rewrite block_length; lia).
    rewrite block_length.
    replace (5 + 5 * k - 5)%nat with (5 * k)%nat by lia.
    replace (5 + 5 * k + 1 - 5)%nat with (5 * k + 1)%nat by lia.
    rewrite Hh, Ht. split; [|reflexivity].
    do 2 f_equal. lia.
Qed.

(** X10.  The lines of the message come five per item, in the order of the
    items, numbered from 1: for the item at position k (from 0), line 5k is
    the header with the index k+1 and line 5k+1 is the title line with the
    escaped title of that item. *)
Theorem blocks_are_numbered_in_order (items : list Item) (k : nat) (it : Item) :
  nth_error items k = Some it ->
  length (build_lines 1 items) = (5 * length items)%nat /\
  nth_error (build_lines 1 items) (5 * k) = Some (block_header (k + 1)) /\
  nth_error (build_lines 1 items) (5 * k + 1)
  = Some ([128478] ++ lit " Title: " ++ html_escape (item_title it)).
Proof.
  intros Hk. split; [apply build_lines_length|].
  rewrite (Nat.add_comm k 1). apply build_lines_nth. exact Hk.
Qed.

Lemma blocks_are_numbered_in_order_witness :
  nth_error [(lit "A", lit "a", lit "b"); (lit "B<", lit "c", lit "d")] 1
  = Some (lit "B<", lit "c", lit "d") /\
  nth_error (build_lines 1 [(lit "A", lit "a", lit "b"); (lit "B<", lit "c", lit "d")]) 5
  = Some (128204 :: lit " Insight #2:") /\
  nth_error (build_lines 1 [(lit "A", lit "a", lit "b"); (lit "B<", lit "c", lit "d")]) 6
  = Some (128478 :: lit " Title: B&lt;").
Proof.
  assert (H : nth_error [(lit "A", lit "a", lit "b"); (lit "B<", lit "c", lit "d")] 1
              = Some (lit "B<", lit "c", lit "d")) by reflexivity.
  split; [exact H|].
  destruct (blocks_are_numbered_in_order _ 1 _ H) as (_ & Hh & Ht).
  split; [exact Hh|exact Ht].
Defined.

(** ** Language Model Client *)

Lemma py_lstrip_spec (s : pystr) :
  exists pre, s = pre ++ py_lstrip s /\ forallb py_isspace pre = true.
Proof.
  induction s as [|c s (pre & Hs & Hpre)]; simpl.
  - exists []. split; reflexivity.
  - destruct (py_isspace c) eqn:Hc.
    + exists (c :: pre). simpl. rewrite Hc, Hpre. split; [congruence|reflexivity].
    + exists []. split; reflexivity.
Qed.

Lemma py_lstrip_head (s : pystr) (c : Z) (r : pystr) :
  py_lstrip s = c :: r -> py_isspace c = false.
Proof.
  induction s as [|d s IH]; simpl; [discriminate|].
  destruct (py_isspace d) eqn:Hd; [exact IH|].
  intros H; inversion H; subst; exact Hd.
Qed.

Lemma forallb_rev {A : Type} (P : A -> bool) (l : list A) :
  forallb P l = true -> forallb P (rev l) = true.
Proof.
  rewrite !forallb_forall. intros H x Hx. apply H. now apply in_rev.
Qed.

Lemma py_strip_spec (s : pystr) :
  exists pre post,
    s = pre ++ py_strip s ++ post /\
    forallb py_isspace pre = true /\ forallb py_isspace post = true /\
    (forall c r, py_strip s = c :: r -> py_isspace c = false) /\
    (forall c r, rev (py_strip s) = c :: r -> py_isspace c = false).
Proof.
  unfold py_strip.
  destruct (py_lstrip_spec s) as (pre & Hs & Hpre).
  destruct (py_lstrip_spec (rev (py_lstrip s))) as (post & Hx & Hpost).
  set (x := py_lstrip s) in *. set (y := py_lstrip (rev x)) in *.
  assert (Hxy : x = rev y ++ rev post).
  { rewrite <- (rev_involutive x), Hx, rev_app_distr. reflexivity. }
  exists pre, (rev post). repeat split.
  - rewrite <- Hxy. exact Hs.
  - exact Hpre.
  - now apply forallb_rev.
  - intros c r Hc. rewrite Hc in Hxy. apply (py_lstrip_head s c (r ++ rev post)).
    exact Hxy.
  - intros c r Hc. rewrite rev_involutive in Hc.
    apply (py_lstrip_head (rev x) c r). exact Hc.
Qed.

(** X11.  [chat_completion] passes on the exception of the model service,
    raises [AttributeError] when the answer has no content, and otherwise
    returns the content without its leading and trailing whitespace: what is
    cut off on either side is whitespace only, and what is returned neither
    begins nor ends with a whitespace character. *)
Theorem chat_completion_strips_the_answer (w : World) (model system user : pystr) :
  match openai_create w model system user with
  | Raise e => chat_completion w model system user = Raise e
  | Ok None =>
      chat_completion w model system user
      = Raise (AttributeError (lit "'NoneType' object has no attribute 'strip'"))
  | Ok (Some content) =>
      exists answer pre post,
        chat_completion w model system user = Ok answer /\
        content = pre ++ answer ++ post /\
        forallb py_isspace pre = true /\ forallb py_isspace post = true /\
        (forall c r, answer = c :: r -> py_isspace c = false) /\
        (forall c r, rev answer = c :: r -> py_isspace c = false)
  end.
Proof.
  unfold chat_completion.
  destruct (openai_create w model system user) as [[content|]|e]; simpl; try reflexivity.
  destruct (py_strip_spec content) as (pre & post & H).
  exists (py_strip content), pre, post. split; [reflexivity|exact H].
Qed.

(** ** Article Extractor: the whitespace of the fallback *)

Lemma split_from_words (s : pystr) :
  forall cur, forallb nonspace cur = true -> Forall is_word (split_from s cur).
Proof.
  induction s as [|c s IH]; intros cur Hcur; simpl.
  - destruct cur; repeat constructor; [discriminate|exact Hcur].
  - destruct (py_isspace c) eqn:Hc.
    + destruct cur as [|d cur]; [apply IH; reflexivity|].
      constructor; [split; [discriminate|exact Hcur]|apply IH; reflexivity].
    + apply IH. rewrite forallb_app, Hcur. unfold nonspace. simpl. rewrite Hc. reflexivity.
Qed.

Lemma split_from_word (p rest : pystr) :
  forallb nonspace p = true ->
  forall cur, split_from (p ++ rest) cur = split_from rest (cur ++ p).
Proof.
  induction p as [|c p IH]; simpl; intros Hp cur; [now rewrite app_nil_r|].
  apply andb_prop in Hp. destruct Hp as [Hc Hp].
  unfold nonspace in Hc. apply negb_true_iff in Hc. rewrite Hc.
  rewrite (IH Hp). rewrite <- app_assoc. reflexivity.
Qed.

Lemma split_join (ws : list pystr) :
  Forall is_word ws -> py_split (py_join [32] ws) = ws.
Proof.
  unfold py_split. induction 1 as [|p ws [Hne Hp] Hws IH]; [reflexivity|].
  destruct ws as [|q ws].
  - simpl py_join. rewrite <- (app_nil_r p) at 1. rewrite (split_from_word p [] Hp).
    simpl. destruct p; [contradiction|reflexivity].
  - change (py_join [32] (p :: q :: ws)) with (p ++ 32 :: py_join [32] (q :: ws)).
    rewrite (split_from_word p _ Hp). simpl app.
    destruct p as [|c p]; [contradiction|].
    cbn [split_from]. change (py_isspace 32) with true. cbv iota.
    rewrite IH. reflexivity.
Qed.

Lemma concat_split (s : pystr) :
  forall cur, concat (split_from s cur) = cur ++ filter nonspace s.
Proof.
  induction s as [|c s IH]; intros cur; cbn [split_from filter].
  - destruct cur; simpl; now rewrite ?app_nil_r.
  - assert (Hn : nonspace c = negb (py_isspace c)) by reflexivity.
    destruct (py_isspace c); simpl in Hn; rewrite Hn.
    + destruct cur; cbn [concat]; rewrite IH; reflexivity.
    + rewrite IH, <- app_assoc. reflexivity.
Qed.

Lemma filter_word (p : pystr) : forallb nonspace p = true -> filter nonspace p = p.
Proof.
  induction p as [|c p IH]; simpl; [reflexivity|].
  intros H. apply andb_prop in H. destruct H as [Hc Hp]. rewrite Hc, (IH Hp). reflexivity.
Qed.

Lemma filter_join (ws : list pystr) :
  Forall is_word ws -> filter nonspace (py_join [32] ws) = concat ws.
Proof.
  induction 1 as [|p ws [_ Hp] Hws IH]; [reflexivity|].
  destruct ws as [|q ws].
  - simpl. rewrite app_nil_r. now apply filter_word.
  - change (py_join [32] (p :: q :: ws)) with (p ++ 32 :: py_join [32] (q :: ws)).
    rewrite filter_app, (filter_word p Hp).
    cbn [filter]. change (nonspace 32) with false. cbv iota.
    rewrite IH. reflexivity.
Qed.

Lemma join_only_spaces (ws : list pystr) :
  Forall is_word ws ->
  forall c, In c (py_join [32] ws) -> py_isspace c = true -> c = 32.
Proof.
  induction 1 as [|p ws [_ Hp] Hws IH]; intros c Hin Hc; [contradiction|].
  assert (Hword : In c p -> c = 32).
  { intros Hcp. rewrite forallb_forall in Hp. specialize (Hp c Hcp).
    unfold nonspace in Hp. rewrite Hc in Hp. discriminate. }
  destruct ws as [|q ws]; [now apply Hword|].
  change (py_join [32] (p :: q :: ws)) with (p ++ 32 :: py_join [32] (q :: ws)) in Hin.
  apply in_app_or in Hin. destruct Hin as [Hin|[Hin|Hin]]; auto.
Qed.

Lemma join_split_length (s : pystr) :
  forall cur, (length (py_join [32%Z] (split_from s cur)) <= length cur + length s)%nat.
Proof.
  induction s as [|c s IH]; intros cur; simpl.
  - destruct cur; simpl; lia.
  - destruct (py_isspace c).
    + destruct cur as [|d cur]; [specialize (IH []); simpl in IH; lia|].
      specialize (IH []). simpl in IH.
      destruct (split_from s []) as [|q ws]; [simpl; lia|].
      change (py_join [32] ((d :: cur) :: q :: ws))
        with ((d :: cur) ++ 32 :: py_join [32] (q :: ws)).
      rewrite length_app. simpl length in *. lia.
    + specialize (IH (cur ++ [c])). rewrite length_app in IH. simpl in IH. lia.
Qed.

(** X12.  The whitespace normalisation of the fallback, joining the words of
    the text with single spaces, keeps the characters that are not
    whitespace, in their order; it leaves no whitespace character other than
    the space, never lengthens the text, and applied to its own result it
    changes nothing. *)
Theorem collapse_whitespace_normalises (s : pystr) :
  filter nonspace (collapse_whitespace s) = filter nonspace s /\
  (forall c, In c (collapse_whitespace s) -> py_isspace c = true -> c = 32) /\
  (length (collapse_whitespace s) <= length s)%nat /\
  collapse_whitespace (collapse_whitespace s) = collapse_whitespace s.
Proof.
  unfold collapse_whitespace.
  assert (Hw : Forall is_word (py_split s)) by (apply split_from_words; reflexivity).
  split; [|split; [|split]].
  - rewrite (filter_join _ Hw). unfold py_split. apply concat_split.
  - now apply join_only_spaces.
  - apply (join_split_length s []).
  - rewrite (split_join _ Hw). reflexivity.
Qed.

(** ** Scheduler: the time to sleep *)

Lemma next_run_sleep (tz : tzone) (clock : Z) :
  exists target,
    next_run tz clock
    = Ok (target,
          US_PER_DAY
          - (wall (astimezone tz (now_in_utc clock)) mod US_PER_DAY - HALF_PAST_NINE)
            mod US_PER_DAY).
Proof.
  pose proof (next_run_value tz clock) as Hv. cbv zeta in Hv.
  set (now_teh := astimezone tz (now_in_utc clock)) in *.
  destruct day_bounds as [Hh Hd].
  pose proof (Z.div_mod (wall now_teh) US_PER_DAY ltac:(lia)) as Hdm.
  pose proof (Z.mod_pos_bound (wall now_teh) US_PER_DAY Hd) as Hmod.
  assert (Hw : wall (replace_time now_teh 9 30)
               = wall now_teh / US_PER_DAY * US_PER_DAY + HALF_PAST_NINE)
    by (unfold replace_time, HALF_PAST_NINE; simpl; lia).
  set (tod := wall now_teh mod US_PER_DAY) in *.
  destruct (Z.leb_spec (wall (replace_time now_teh 9 30)) (wall now_teh)) as [Hlate|Hearly].
  - eexists. rewrite Hv. do 2 f_equal.
    rewrite (Z.mod_small (tod - HALF_PAST_NINE)) by lia. lia.
  - eexists. rewrite Hv. do 2 f_equal.
    rewrite <- (Z.mod_add (tod - HALF_PAST_NINE) 1 US_PER_DAY) by lia.
    rewrite Z.mod_small by lia. lia.
Qed.



(** ** Scheduler: sleeps and runs *)

Lemma run_once_on_quiet (w : World) (entries : list Candidate) :
  filter is_run_start (events (run_once_on w entries)) = [] /\
  filter is_sleep (events (run_once_on w entries)) = [].
Proof.
  destruct (processing_events_filtered _ (process_loop_processing w entries []))
    as (_ & Hr & Hs).
  rewrite run_once_on_events, !filter_app, Hr, Hs.
  destruct (capped_items w entries) as [|it its]; [split; reflexivity|].
  destruct (finish_run_nonempty w it its) as [_ Hev]. rewrite Hev, !filter_app.
  destruct (send_telegram_events w (build_message (it :: its))) as (_ & Hr' & Hs').
  rewrite Hr', Hs'.
  destruct (outcome (send_telegram w (build_message (it :: its)))); split; reflexivity.
Qed.

Lemma run_once_counts (w : World) :
  runs_started (events (run_once w)) = 1%nat /\ sleeps (events (run_once w)) = 0%nat.
Proof.
  unfold runs_started, sleeps. rewrite run_once_events.
  cbn [filter is_sleep].
  change (is_run_start (EvLog INFO FETCHING_MSG [])) with true. cbv iota.
  destruct (fetch_recent_entries w) as [entries|e]; [|split; reflexivity].
  destruct (run_once_on_quiet w entries) as [Hr Hs]. rewrite Hr, Hs. split; reflexivity.
Qed.

Lemma loop_body_counts (tz : tzone) (t : Turn) :
  runs_started (events (loop_body tz t)) = 1%nat /\
  sleeps (events (loop_body tz t)) = 1%nat /\
  exists target sleep_us rest,
    events (loop_body tz t) = sleep_events target sleep_us ++ rest /\ 0 < sleep_us.
Proof.
  destruct (next_run_sleep tz (loop_clock t)) as [target Hn].
  rewrite (loop_body_value tz t _ _ Hn). cbn [events fst].
  destruct (run_once_counts (run_world t)) as [Hr Hs].
  unfold runs_started, sleeps in *. rewrite !filter_app, !length_app, Hr, Hs.
  repeat split.
  eexists; eexists; eexists. split; [reflexivity|].
  destruct day_bounds as [_ Hd].
  pose proof (Z.mod_pos_bound
                (wall (astimezone tz (now_in_utc (loop_clock t))) mod US_PER_DAY
                 - HALF_PAST_NINE) US_PER_DAY Hd).
  lia.
Qed.

(** X14.  In the scheduling loop every turn sleeps once, for a positive
    time, and then starts the pipeline once: the pipeline is never started
    before the first sleep, there are as many sleeps as runs, never more
    than the turns taken, and exactly as many while no run has raised. *)
Theorem each_turn_sleeps_then_runs_once (tz : tzone) (turns : nat -> Turn) (i n : nat) :
  let trace := fst (main_loop tz turns i n) in
  sleeps trace = runs_started trace /\
  (runs_started trace <= n)%nat /\
  (snd (main_loop tz turns i n) = StillLooping -> runs_started trace = n) /\
  ((0 < n)%nat ->
   exists target sleep_us rest,
     trace = sleep_events target sleep_us ++ rest /\ 0 < sleep_us).
Proof.
  revert i. induction n as [|n IH]; intros i; cbv zeta.
  - cbn. repeat split; try lia.
  - cbn [main_loop].
    destruct (loop_body_counts tz (turns i)) as (Hr & Hs & target & sleep_us & rest & Hev & Hpos).
    destruct (loop_body tz (turns i)) as [l [u|e]]; cbn [events fst] in Hr, Hs, Hev.
    + specialize (IH (S i)). cbv zeta in IH.
      destruct (main_loop tz turns (S i) n) as [l' r]. cbn [fst snd] in *.
      destruct IH as (IH1 & IH2 & IH3 & _).
      unfold sleeps, runs_started in *. rewrite !filter_app, !length_app.
      repeat split; try lia.
      * intros Hloop. specialize (IH3 Hloop). lia.
      * intros _. exists target, sleep_us, (rest ++ l').
        rewrite Hev, <- app_assoc. split; [reflexivity|exact Hpos].
    + cbn [fst snd]. repeat split; try lia; try discriminate.
      intros _. exists target, sleep_us, rest. split; assumption.
Qed.

Lemma each_turn_sleeps_then_runs_once_witness :
  snd (main_loop tehran_fixed turns_quiet 0 3) = StillLooping /\
  runs_started (fst (main_loop tehran_fixed turns_quiet 0 3)) = 3%nat /\
  sleeps (fst (main_loop tehran_fixed turns_quiet 0 3)) = 3%nat /\
  (0 < 3)%nat /\
  exists target sleep_us rest,
    fst (main_loop tehran_fixed turns_quiet 0 3) = sleep_events target sleep_us ++ rest /\
    0 < sleep_us.
Proof.
  assert (Hloop : snd (main_loop tehran_fixed turns_quiet 0 3) = StillLooping) by reflexivity.
  assert (Hpos : (0 < 3)%nat) by lia.
  destruct (each_turn_sleeps_then_runs_once tehran_fixed turns_quiet 0 3)
    as (Heq & _ & Hn & Hfirst).
  split; [exact Hloop|]. split; [exact (Hn Hloop)|].
  split; [rewrite Heq; exact (Hn Hloop)|]. split; [exact Hpos|].
  exact (Hfirst Hpos).
Defined.

(** ** The command line *)

(** X15.  With [--run-once] the process runs the pipeline once and never
    sleeps: it ends normally when the run returns and with the exception of
    the run otherwise.  Without the option the process never ends normally:
    it is in the scheduling loop, or an exception has ended it. *)
Theorem run_once_flag_runs_without_sleep (tz : tzone) (turns : nat -> Turn) (n : nat) :
  fst (main true tz turns n) = events (run_once (run_world (turns O))) /\
  sleeps (fst (main true tz turns n)) = 0%nat /\
  runs_started (fst (main true tz turns n)) = 1%nat /\
  snd (main true tz turns n)
  = match outcome (run_once (run_world (turns O))) with
    | Ok _ => Exited
    | Raise e => Uncaught e
    end /\
  fst (main false tz turns n) = fst (main_loop tz turns 0 n) /\
  snd (main false tz turns n) <> Exited.
Proof.
  destruct (run_once_counts (run_world (turns O))) as [Hr Hs].
  unfold main.
  destruct (run_once (run_world (turns O))) as [l [u|e]]; cbn [events outcome fst snd] in *;
    destruct (main_loop tz turns 0 n) as [l' [|e']]; cbn [fst snd];
    repeat split; auto; discriminate.
Qed.

(** ** Delivery Client: what is posted *)

Lemma send_telegram_posts (w : World) (text : pystr) :
  filter is_http_post (events (send_telegram w text))
  = match BOT_TOKEN w, CHAT_ID w with
    | _ :: _, _ :: _ => [EvHttpPost (TELEGRAM_URL w) (CHAT_ID w) text]
    | _, _ => []
    end.
Proof.
  unfold send_telegram.
  destruct (BOT_TOKEN w) as [|t0 token]; [reflexivity|].
  destruct (CHAT_ID w) as [|c0 chat]; [reflexivity|]. simpl.
  destruct (requests_post w _ _ text) as [resp|e]; simpl; [|reflexivity].
  destruct (resp_ok resp); reflexivity.
Qed.

(** X16.  A run posts to the channel at most once, and what it posts is the
    message built from the processed items, of at most 4000 characters, sent
    to the URL of the bot with the configured chat id; this only happens
    with a token and a chat id that are not empty. *)
Theorem run_posts_the_built_message_once (w : World) (entries : list Candidate) :
  (length (filter is_http_post (events (run_once_on w entries))) <= 1)%nat /\
  forall url chat_id text,
    In (EvHttpPost url chat_id text) (events (run_once_on w entries)) ->
    url = TELEGRAM_URL w /\ chat_id = CHAT_ID w /\
    text = build_message (capped_items w entries) /\
    capped_items w entries <> [] /\
    (length text <= 4000)%nat /\
    BOT_TOKEN w <> [] /\ CHAT_ID w <> [].
Proof.
  assert (Hposts :
            filter is_http_post (events (run_once_on w entries))
            = match capped_items w entries, BOT_TOKEN w, CHAT_ID w with
              | _ :: _, _ :: _, _ :: _ =>
                  [EvHttpPost (TELEGRAM_URL w) (CHAT_ID w)
                              (build_message (capped_items w entries))]
              | _, _, _ => []
              end).
  { rewrite run_once_on_events, filter_app.
    destruct (logs_only _ (process_loop_logs w entries [])) as [_ Hp]. rewrite Hp.
    destruct (capped_items w entries) as [|it its]; [reflexivity|].
    destruct (finish_run_nonempty w it its) as [_ Hev]. rewrite Hev, filter_app.
    rewrite send_telegram_posts. cbn [app].
    destruct (outcome (send_telegram w (build_message (it :: its))));
      destruct (BOT_TOKEN w), (CHAT_ID w); reflexivity. }
  split.
  - rewrite Hposts.
    destruct (capped_items w entries), (BOT_TOKEN w), (CHAT_ID w); simpl; lia.
  - intros url chat_id text Hin.
    assert (Hf : In (EvHttpPost url chat_id text)
                    (filter is_http_post (events (run_once_on w entries))))
      by (apply filter_In; split; [exact Hin|reflexivity]).
    rewrite Hposts in Hf.
    destruct (capped_items w entries) as [|it its]; [contradiction|].
    destruct (BOT_TOKEN w) as [|t0 token] eqn:Et; [contradiction|].
    destruct (CHAT_ID w) as [|c0 chat] eqn:Ec; [contradiction|].
    destruct Hf as [Hf|[]]. inversion Hf; subst.
    repeat split; try discriminate; auto.
    apply firstn_le_length.
Qed.

Lemma run_posts_the_built_message_once_witness :
  In (EvHttpPost (TELEGRAM_URL quiet_world) (lit "42")
                 (build_message (capped_items quiet_world [cand1; cand2; cand3])))
     (events (run_once_on quiet_world [cand1; cand2; cand3])) /\
  (length (build_message (capped_items quiet_world [cand1; cand2; cand3])) <= 4000)%nat.
Proof.
  assert (H : In (EvHttpPost (TELEGRAM_URL quiet_world) (lit "42")
                   (build_message (capped_items quiet_world [cand1; cand2; cand3])))
                 (events (run_once_on quiet_world [cand1; cand2; cand3])))
    by (vm_compute; do 5 right; left; reflexivity).
  split; [exact H|].
  destruct (proj2 (run_posts_the_built_message_once quiet_world [cand1; cand2; cand3]) _ _ _ H)
    as (_ & _ & _ & _ & Hlen & _).
  exact Hlen.
Defined.
